(** * tankgame/utils/Vector.hpp: the fixed-dimension vector type

    A shallow embedding of [linearAlgebra::Vector<T, Dim>] and of its
    operations, followed by the properties of the operations.

    Modelling choices, all taken from the header:
    - [Scalar] is [double].  A double is an IEEE 754 binary64 value, given
      by [spec_float] with precision 53 and maximal exponent 1024; every
      operation rounds to nearest, ties to even, and is rounded on its own
      (no fused multiply-add).
    - The components live in a [std::vector<T>], a [list T] here.  The
      template parameter [Dim] is a phantom index of the record: nothing in
      the representation forces the list to have [Dim] elements, as nothing
      does in the header, where the private constructor stores whatever
      [std::vector] it is given.
    - Undefined behaviour (an index out of range, signed overflow, a
      conversion from double to an integer type that does not fit) is the
      outcome [None] of the [option] monad.
    - [size_t] is the 64-bit unsigned type: its arithmetic wraps at 2^64. *)

From Stdlib Require Import ZArith List String Ascii Bool Lia.
From Stdlib Require Import SpecFloat DecimalString.
Import ListNotations.

Local Open Scope Z_scope.

(** ** Undefined behaviour as an error monad *)

Definition bind {A B : Type} (m : option A) (k : A -> option B) : option B :=
  match m with
  | Some a => k a
  | None => None
  end.

Declare Scope ub_scope.
Delimit Scope ub_scope with ub.
Notation "v <- m ;; k" := (bind m (fun v => k))
  (at level 61, m at next level, right associativity) : ub_scope.
Local Open Scope ub_scope.

(** A left fold that stops at the first undefined step. *)
Fixpoint foldM {A St : Type} (f : St -> A -> option St) (l : list A) (s : St)
    : option St :=
  match l with
  | [] => Some s
  | a :: l' =>
      s' <- f s a ;;
      foldM f l' s'
  end.

(** An element-wise map of two lists that stops at the first undefined
    element, or at the end of the first list; undefined when the second list
    ends before the first. *)
Fixpoint zipM {A B C : Type} (op : A -> B -> option C)
    (l1 : list A) (l2 : list B) : option (list C) :=
  match l1, l2 with
  | [], _ => Some []
  | _ :: _, [] => None
  | a :: l1', b :: l2' =>
      c <- op a b ;;
      r <- zipM op l1' l2' ;;
      Some (c :: r)
  end.

(** ** [size_t] *)

Module size_t.

Definition modulus : Z := 2 ^ 64.

Definition wrap (z : Z) : Z := z mod modulus.

Definition sub (a b : Z) : Z := wrap (a - b).

Definition succ (i : Z) : Z := wrap (i + 1).

End size_t.

(** [for (size_t i = 0; i < bound; i++) body]: the loop variable starts at
    [0], only [i++] changes it and [bound] is not changed by the body, so the
    body runs for [i = 0, 1, ..., bound - 1], that is [bound] times.  The loop
    stops at the first iteration whose body has undefined behaviour. *)
Fixpoint for_from {St : Type} (count : nat) (i : Z)
    (body : Z -> St -> option St) (s : St) : option St :=
  match count with
  | O => Some s
  | S count' =>
      s' <- body i s ;;
      for_from count' (size_t.succ i) body s'
  end.

Definition for_size_t {St : Type} (bound : Z)
    (body : Z -> St -> option St) (s : St) : option St :=
  for_from (Z.to_nat bound) 0 body s.

(** ** [std::vector<T>] *)

Module std_vector.

(** [v.size()] *)
Definition size {T : Type} (v : list T) : Z := Z.of_nat (List.length v).

(** [v[i]]: undefined when [i] is not below [v.size()]. *)
Definition at_ {T : Type} (v : list T) (i : Z) : option T :=
  if (0 <=? i) && (i <? size v) then nth_error v (Z.to_nat i) else None.

(** [v.push_back(c)], as done by [std::back_inserter(v)]. *)
Definition push_back {T : Type} (v : list T) (c : T) : list T := v ++ [c].

(** [std::transform(first1, last1, std::back_inserter(ret), op)] *)
Fixpoint transform {A C : Type} (op : A -> option C)
    (r1 : list A) (ret : list C) : option (list C) :=
  match r1 with
  | [] => Some ret
  | a :: r1' =>
      c <- op a ;;
      transform op r1' (push_back ret c)
  end.

(** [std::transform(first1, last1, first2, std::back_inserter(ret), op)]:
    the second range is read at the positions of the first one, and reading
    past its end is undefined. *)
Fixpoint transform2 {A B C : Type} (op : A -> B -> option C)
    (r1 : list A) (r2 : list B) (ret : list C) : option (list C) :=
  match r1 with
  | [] => Some ret
  | a :: r1' =>
      match r2 with
      | [] => None
      | b :: r2' =>
          c <- op a b ;;
          transform2 op r1' r2' (push_back ret c)
      end
  end.

End std_vector.

(** ** [double] *)

Module double.

Definition prec : Z := 53.
Definition emax : Z := 1024.

Definition t : Type := spec_float.

Definition add : t -> t -> t := SFadd prec emax.
Definition sub : t -> t -> t := SFsub prec emax.
Definition mul : t -> t -> t := SFmul prec emax.
Definition sqrt : t -> t := SFsqrt prec emax.

(** The comparisons [==] and [>=] of the language: both are false as soon
    as one side is a NaN. *)
Definition eqb : t -> t -> bool := SFeqb.
Definition geb (a b : t) : bool := SFleb b a.

(** The literal [0.0]. *)
Definition zero : t := S754_zero false.

(** Conversion of an integer to [double]. *)
Definition of_Z (z : Z) : t := binary_normalize prec emax z 0 false.

(** Conversion of a [double] to an integer: the fractional part is
    dropped; infinities and NaN have no integer value. *)
Definition trunc (d : t) : option Z :=
  match d with
  | S754_zero _ => Some 0
  | S754_finite s m e => Some (cond_Zopp s (Z.shiftl (Zpos m) e))
  | S754_infinity _ | S754_nan => None
  end.

Definition is_nan (d : t) : bool :=
  match d with
  | S754_nan => true
  | _ => false
  end.

Definition is_finite (d : t) : bool :=
  match d with
  | S754_zero _ | S754_finite _ _ _ => true
  | S754_infinity _ | S754_nan => false
  end.

(** A zero of either sign, a positive number or plus infinity. *)
Definition is_nonneg (d : t) : bool :=
  match d with
  | S754_zero _ | S754_finite false _ _ | S754_infinity false => true
  | S754_finite true _ _ | S754_infinity true | S754_nan => false
  end.

(** *** [std::to_string(double)], that is [printf("%f")]: the value rounded
    to six decimals (to nearest, ties to even, on the exact value), with at
    least one digit before the point.  The C library writes a NaN as [nan]
    or [-nan] after its sign bit ([inf - inf] gives [-nan] on x86-64); a NaN
    carries no sign bit here, and is written [nan]: the text of a NaN
    component is not determined by this model, and no property below rests
    on it. *)

Definition round_half_even (n d : Z) : Z :=
  let q := n / d in
  let r := n mod d in
  match 2 * r ?= d with
  | Lt => q
  | Gt => q + 1
  | Eq => if Z.even q then q else q + 1
  end.

(** [m * 2^e * 10^6] rounded to an integer. *)
Definition micro (m : positive) (e : Z) : Z :=
  match e with
  | Zneg p => round_half_even (Zpos m * 10 ^ 6) (2 ^ Zpos p)
  | _ => Zpos m * 2 ^ e * 10 ^ 6
  end.

Definition digits (n : Z) : string :=
  NilZero.string_of_uint (N.to_uint (Z.to_N n)).

(** The six digits after the point. *)
Definition digits6 (n : Z) : string :=
  substring 1 6 (digits (10 ^ 6 + n)).

Definition sign_text (s : bool) : string :=
  if s then "-"%string else ""%string.

Definition to_string (d : t) : string :=
  match d with
  | S754_nan => "nan"
  | S754_infinity s => sign_text s ++ "inf"
  | S754_zero s => sign_text s ++ "0.000000"
  | S754_finite s m e =>
      let n := micro m e in
      sign_text s ++ digits (n / 10 ^ 6) ++ "." ++ digits6 (n mod 10 ^ 6)
  end%string.

End double.


(** ** The component types *)

Module linearAlgebra.

Definition Scalar : Type := double.t.

Definition Angle : Type := double.t.

(** The concept [ScalarType]: an arithmetic type, given by what the header
    does with its values.  Types narrower than [int], whose products are
    computed in [int], and [long double], wider than [Scalar], are not
    instances. *)
Class ScalarType (T : Type) : Type := {
  (** [std::plus<T>()] *)
  plus : T -> T -> option T;
  (** [std::minus<T>()] *)
  minus : T -> T -> option T;
  (** [a * b] on two values of type [T] *)
  mult : T -> T -> option T;
  (** the conversion of a [T] to [Scalar] *)
  to_Scalar : T -> Scalar;
  (** the conversion of a [Scalar] to [T] *)
  of_Scalar : Scalar -> option T;
  (** [std::to_string] *)
  to_string : T -> string
}.

(** [double], the component type of [Vector3d]: no operation is undefined
    and both conversions are the identity. *)
#[export] Instance ScalarType_double : ScalarType double.t := {
  plus a b := Some (double.add a b);
  minus a b := Some (double.sub a b);
  mult a b := Some (double.mul a b);
  to_Scalar a := a;
  of_Scalar d := Some d;
  to_string := double.to_string
}.

(** [int]: 32 bits, two's complement; a result out of range is undefined. *)
Module int.

Definition t : Type := Z.

Definition min : Z := - 2 ^ 31.
Definition max : Z := 2 ^ 31 - 1.

Definition in_range (z : Z) : bool := (min <=? z) && (z <=? max).

Definition checked (z : Z) : option t :=
  if in_range z then Some z else None.

Definition to_string (z : t) : string :=
  NilZero.string_of_int (Z.to_int z).

End int.

#[export] Instance ScalarType_int : ScalarType int.t := {
  plus a b := int.checked (a + b);
  minus a b := int.checked (a - b);
  mult a b := int.checked (a * b);
  to_Scalar a := double.of_Z a;
  of_Scalar d := z <- double.trunc d ;; int.checked z;
  to_string := int.to_string
}.

(** [unsigned int]: 32 bits; the arithmetic wraps, only a conversion from a
    [double] whose integer part does not fit is undefined. *)
Module unsigned.

Record t : Type := mk { value : Z }.

Definition modulus : Z := 2 ^ 32.

Definition wrap (z : Z) : t := mk (z mod modulus).

Definition in_range (z : Z) : bool := (0 <=? z) && (z <? modulus).

Definition checked (z : Z) : option t :=
  if in_range z then Some (mk z) else None.

Definition to_string (u : t) : string := double.digits (value u).

End unsigned.

#[export] Instance ScalarType_unsigned : ScalarType unsigned.t := {
  plus a b := Some (unsigned.wrap (unsigned.value a + unsigned.value b));
  minus a b := Some (unsigned.wrap (unsigned.value a - unsigned.value b));
  mult a b := Some (unsigned.wrap (unsigned.value a * unsigned.value b));
  to_Scalar a := double.of_Z (unsigned.value a);
  of_Scalar d := z <- double.trunc d ;; unsigned.checked z;
  to_string := unsigned.to_string
}.

(** ** [template<ScalarType T, size_t Dim> class Vector] *)

Record Vector (T : Type) (Dim : nat) : Type := Vector_of_vec {
  vec : list T
}.
Arguments Vector_of_vec {T Dim} _.
Arguments vec {T Dim} _.

(** The private constructor [Vector(std::vector<T> v)] is
    [Vector_of_vec]; it does not look at the size of [v].

    The public constructor takes the components as arguments, here
    already of type [T]; its [requires] clause is the proof that there are
    [Dim] of them. *)
Definition Vector_ctor {T : Type} {Dim : nat} (xn : list T)
    (requires : List.length xn = Dim) : Vector T Dim :=
  Vector_of_vec xn.

Definition Vector3d : Type := Vector Scalar 3.

Definition mkVector3d (x0 x1 x2 : Scalar) : Vector3d :=
  Vector_ctor (Dim := 3) [x0; x1; x2] eq_refl.

(** The invariant of the data model: [Dim] components are stored.  [Dim]
    is a [size_t]: the properties that depend on it take
    [Z.of_nat Dim < size_t.modulus] as a hypothesis. *)
Definition has_dim {T : Type} {Dim : nat} (v : Vector T Dim) : Prop :=
  List.length (vec v) = Dim.

Section Operations.

Context {T : Type} `{ScalarType T} {Dim : nat}.

(** [operator+]: vector addition *)
Definition operator_plus (this other : Vector T Dim)
    : option (Vector T Dim) :=
  ret <- std_vector.transform2 plus (vec this) (vec other) [] ;;
  Some (Vector_of_vec ret).

(** [operator-]: vector subtraction *)
Definition operator_minus (this other : Vector T Dim)
    : option (Vector T Dim) :=
  ret <- std_vector.transform2 minus (vec this) (vec other) [] ;;
  Some (Vector_of_vec ret).

(** [operator*(const Scalar&)]: the lambda takes its argument as a
    [Scalar], multiplies in [Scalar], and [push_back] converts the
    product to [T]. *)
Definition operator_mul_Scalar (this : Vector T Dim) (s : Scalar)
    : option (Vector T Dim) :=
  ret <- std_vector.transform
           (fun elem => of_Scalar (double.mul s (to_Scalar elem)))
           (vec this) [] ;;
  Some (Vector_of_vec ret).

(** [operator*(const Vector&)]: the dot product *)
Definition operator_mul_Vector (this other : Vector T Dim)
    : option Scalar :=
  for_size_t (std_vector.size (vec this))
    (fun i ret =>
       a <- std_vector.at_ (vec this) i ;;
       b <- std_vector.at_ (vec other) i ;;
       p <- mult a b ;;
       Some (double.add ret (to_Scalar p)))
    double.zero.

Definition length (this : Vector T Dim) : option Scalar :=
  ret <- for_size_t (std_vector.size (vec this))
           (fun i ret =>
              a <- std_vector.at_ (vec this) i ;;
              b <- std_vector.at_ (vec this) i ;;
              p <- mult a b ;;
              Some (double.add ret (to_Scalar p)))
           double.zero ;;
  Some (double.sqrt ret).

(** [toString]: [vec.size() - 1] is computed in [size_t]. *)
Definition toString (this : Vector T Dim) : option string :=
  let last := size_t.sub (std_vector.size (vec this)) 1 in
  str <- for_size_t last
           (fun i str =>
              c <- std_vector.at_ (vec this) i ;;
              Some (str ++ (to_string c ++ ", "))%string)
           "[ "%string ;;
  c <- std_vector.at_ (vec this) last ;;
  Some (str ++ (to_string c ++ " ]"))%string.

End Operations.

(** [x]: the cross product, enabled only when [Dim == 3].  The argument
    and the result are [Vector<Scalar, 3>]; a component of [this] is
    converted to [Scalar] to be multiplied by one of [other]. *)
Definition x {T : Type} `{ScalarType T}
    (this : Vector T 3) (other : Vector Scalar 3)
    : option (Vector Scalar 3) :=
  let term (i j : Z) : option Scalar :=
    a <- std_vector.at_ (vec this) i ;;
    b <- std_vector.at_ (vec other) j ;;
    Some (double.mul (to_Scalar a) b) in
  let diff (i j : Z) : option Scalar :=
    l <- term i j ;;
    r <- term j i ;;
    Some (double.sub l r) in
  e0 <- diff 1 2 ;;
  e1 <- diff 2 0 ;;
  e2 <- diff 0 1 ;;
  Some (Vector_ctor (Dim := 3) [e0; e1; e2] eq_refl).

(** [operator<<]: an output stream is the text written to it so far. *)
Definition ostream : Type := string.

Definition operator_shl {S : Type} `{ScalarType S} {Dim : nat}
    (os : ostream) (v : Vector S Dim) : option ostream :=
  str <- toString v ;;
  Some (os ++ str)%string.

End linearAlgebra.

Import linearAlgebra.

(** ** The specification's vocabulary *)

Module Spec.

(** "sum over i of a[i]*b[i]": the products are taken in index order and
    added to [0.0] one after the other, in [Scalar]. *)
Definition sum_of_products {T : Type} `{ScalarType T} (a b : list T)
    : option Scalar :=
  foldM (fun ret ab =>
           p <- mult (fst ab) (snd ab) ;;
           Some (double.add ret (to_Scalar p)))
        (combine a b) double.zero.

(** "zeroVector has every component 0" *)
Definition zeroVector {T : Type} (zero : T) (Dim : nat) : Vector T Dim :=
  Vector_of_vec (repeat zero Dim).

(** "[ c0, c1, ..., c_{Dim-1} ]" *)
Definition rendering (cs : list string) : string :=
  ("[ " ++ String.concat ", " cs ++ " ]")%string.

End Spec.

(** Some values of type [double]. *)
Definition two_pow_53 : Scalar := double.of_Z (2 ^ 53).
Definition one_half : Scalar := S754_finite false (2 ^ 52) (-53).
Definition infinity : Scalar := S754_infinity false.
Definition NaN : Scalar := S754_nan.
Definition neg_zero : Scalar := S754_zero true.

(** * Properties *)

(** ** The monad, the loops and [std::vector] *)

Lemma bind_Some {A B : Type} (m : option A) (k : A -> option B) (b : B) :
  bind m k = Some b <-> exists a, m = Some a /\ k a = Some b.
Proof.
  destruct m as [a|]; simpl; split.
  - intros E. exists a. auto.
  - intros (a' & E & K). injection E as ->. exact K.
  - discriminate.
  - intros (a' & E & _). discriminate.
Qed.

Lemma foldM_total {A St : Type} (f : St -> A -> option St)
    (g : St -> A -> St) (l : list A) :
  (forall s a, f s a = Some (g s a)) ->
  forall s, foldM f l s = Some (fold_left g l s).
Proof.
  intros Hf. induction l as [|a l IH]; intros s; simpl.
  - reflexivity.
  - rewrite Hf. simpl. apply IH.
Qed.

Lemma foldM_invariant {A St : Type} (f : St -> A -> option St)
    (P : St -> Prop) (Q : A -> Prop) (l : list A) :
  (forall s a s', P s -> Q a -> f s a = Some s' -> P s') ->
  Forall Q l ->
  forall s r, P s -> foldM f l s = Some r -> P r.
Proof.
  intros Hf Hl. induction Hl as [|a l Qa _ IH]; intros s r Ps; simpl.
  - intros E. injection E as <-. exact Ps.
  - intros E. apply bind_Some in E. destruct E as (s' & E1 & E2).
    eapply IH; [|exact E2]. eapply Hf; eauto.
Qed.

Lemma size_t_succ_of_nat (n : nat) :
  Z.of_nat (S n) < size_t.modulus ->
  size_t.succ (Z.of_nat n) = Z.of_nat (S n).
Proof.
  intros Hn. unfold size_t.succ, size_t.wrap.
  rewrite Z.mod_small; lia.
Qed.

Lemma at_in_bounds {T : Type} (v : list T) (i : Z) :
  (exists c, std_vector.at_ v i = Some c) <-> 0 <= i < std_vector.size v.
Proof.
  unfold std_vector.at_, std_vector.size.
  destruct (Z.leb_spec 0 i) as [H0|H0];
    destruct (Z.ltb_spec i (Z.of_nat (List.length v))) as [H1|H1];
    simpl; split;
    try (intros (c & E); discriminate); try lia.
  intros _.
  destruct (nth_error v (Z.to_nat i)) as [c|] eqn:E.
  - exists c. reflexivity.
  - apply nth_error_None in E. lia.
Qed.

Lemma at_middle {T : Type} (l1 l2 : list T) (c : T) :
  std_vector.at_ (l1 ++ c :: l2) (Z.of_nat (List.length l1)) = Some c.
Proof.
  unfold std_vector.at_, std_vector.size.
  rewrite length_app. simpl.
  replace (0 <=? Z.of_nat (List.length l1)) with true
    by (symmetry; apply Z.leb_le; lia).
  replace (Z.of_nat (List.length l1)
           <? Z.of_nat (List.length l1 + S (List.length l2))) with true
    by (symmetry; apply Z.ltb_lt; lia).
  simpl. rewrite Nat2Z.id.
  rewrite nth_error_app2 by lia.
  rewrite Nat.sub_diag. reflexivity.
Qed.

(** A loop that reads [v[i]] at each step is a fold over the part of [v] it
    runs through. *)
Lemma for_from_list {T St : Type} (k : St -> T -> option St) (v : list T) :
  forall (l2 l1 l3 : list T) (s : St),
    v = l1 ++ l2 ++ l3 ->
    Z.of_nat (List.length l1 + List.length l2) < size_t.modulus ->
    for_from (List.length l2) (Z.of_nat (List.length l1))
      (fun i st => c <- std_vector.at_ v i ;; k st c) s
    = foldM k l2 s.
Proof.
  induction l2 as [|a l2 IH]; intros l1 l3 s Hv Hlen; simpl.
  - reflexivity.
  - rewrite Hv at 1. simpl. rewrite at_middle. simpl.
    destruct (k s a) as [s'|]; simpl; [|reflexivity].
    simpl in Hlen.
    rewrite size_t_succ_of_nat by lia.
    replace (S (List.length l1)) with (List.length (l1 ++ [a]))
      by (rewrite length_app; simpl; lia).
    apply (IH (l1 ++ [a]) l3).
    + rewrite <- app_assoc. exact Hv.
    + rewrite length_app. simpl. lia.
Qed.

(** The same for a loop that reads two vectors at the same index. *)
Lemma for_from_list2 {T U St : Type} (k : St -> T * U -> option St)
    (v : list T) (w : list U) :
  forall (l2 l1 : list T) (m2 m1 : list U) (s : St),
    v = l1 ++ l2 -> w = m1 ++ m2 ->
    List.length l1 = List.length m1 ->
    List.length l2 = List.length m2 ->
    Z.of_nat (List.length l1 + List.length l2) < size_t.modulus ->
    for_from (List.length l2) (Z.of_nat (List.length l1))
      (fun i st =>
         a <- std_vector.at_ v i ;;
         b <- std_vector.at_ w i ;;
         k st (a, b)) s
    = foldM k (combine l2 m2) s.
Proof.
  induction l2 as [|a l2 IH]; intros l1 m2 m1 s Hv Hw H1 H2 Hlen; simpl.
  - reflexivity.
  - destruct m2 as [|b m2]; [discriminate|].
    rewrite Hv at 1. rewrite at_middle. simpl.
    rewrite Hw at 1. rewrite H1. rewrite at_middle. simpl.
    destruct (k s (a, b)) as [s'|]; simpl; [|reflexivity].
    simpl in Hlen, H2.
    rewrite <- H1.
    rewrite size_t_succ_of_nat by lia.
    replace (S (List.length l1)) with (List.length (l1 ++ [a]))
      by (rewrite length_app; simpl; lia).
    apply (IH (l1 ++ [a]) m2 (m1 ++ [b])).
    + rewrite <- app_assoc. exact Hv.
    + rewrite <- app_assoc. exact Hw.
    + rewrite !length_app. simpl. lia.
    + lia.
    + rewrite length_app. simpl. lia.
Qed.

(** [std::transform] into an inserter appends the element-wise results. *)
Lemma transform2_zipM {A B C : Type} (op : A -> B -> option C) :
  forall (r1 : list A) (r2 : list B) (ret : list C),
    std_vector.transform2 op r1 r2 ret
    = (r <- zipM op r1 r2 ;; Some (ret ++ r)).
Proof.
  induction r1 as [|a r1 IH]; intros r2 ret; simpl.
  - rewrite app_nil_r. reflexivity.
  - destruct r2 as [|b r2]; simpl; [reflexivity|].
    destruct (op a b) as [c|]; simpl; [|reflexivity].
    rewrite IH. unfold std_vector.push_back.
    destruct (zipM op r1 r2) as [r|]; simpl; [|reflexivity].
    rewrite <- app_assoc. reflexivity.
Qed.

Lemma zipM_length {A B C : Type} (op : A -> B -> option C) :
  forall (l1 : list A) (l2 : list B) (r : list C),
    zipM op l1 l2 = Some r -> List.length r = List.length l1.
Proof.
  induction l1 as [|a l1 IH]; intros l2 r; simpl.
  - intros E. injection E as <-. reflexivity.
  - destruct l2 as [|b l2]; [discriminate|].
    intros E. apply bind_Some in E. destruct E as (c & _ & E).
    apply bind_Some in E. destruct E as (r' & E & E').
    injection E' as <-. simpl. f_equal. eapply IH. exact E.
Qed.

Lemma zipM_defined {A B C : Type} (op : A -> B -> option C) :
  forall (l1 : list A) (l2 : list B),
    List.length l1 = List.length l2 ->
    (forall a b, In (a, b) (combine l1 l2) -> op a b <> None) ->
    exists r, zipM op l1 l2 = Some r.
Proof.
  induction l1 as [|a l1 IH]; intros l2 Hlen Hop; simpl.
  - exists []. reflexivity.
  - destruct l2 as [|b l2]; [discriminate|].
    destruct (op a b) as [c|] eqn:E.
    + destruct (IH l2) as (r & Hr).
      * simpl in Hlen. lia.
      * intros a' b' Hin. apply Hop. right. exact Hin.
      * rewrite Hr. simpl. eauto.
    + exfalso. apply (Hop a b); [left; reflexivity | exact E].
Qed.

Lemma zipM_total {A B C : Type} (op : A -> B -> option C)
    (f : A -> B -> C) :
  (forall a b, op a b = Some (f a b)) ->
  forall (l1 : list A) (l2 : list B),
    List.length l1 = List.length l2 ->
    zipM op l1 l2 = Some (map (fun ab => f (fst ab) (snd ab)) (combine l1 l2)).
Proof.
  intros Hop. induction l1 as [|a l1 IH]; intros l2 Hlen; simpl.
  - reflexivity.
  - destruct l2 as [|b l2]; [discriminate|].
    rewrite Hop. simpl. rewrite IH by (simpl in Hlen; lia). reflexivity.
Qed.

Lemma transform_Forall2 {A C : Type} (op : A -> option C) :
  forall (r1 : list A) (ret out : list C),
    std_vector.transform op r1 ret = Some out <->
    exists r, out = ret ++ r /\ Forall2 (fun a c => op a = Some c) r1 r.
Proof.
  induction r1 as [|a r1 IH]; intros ret out; simpl.
  - split.
    + intros E. injection E as <-. exists []. rewrite app_nil_r. auto.
    + intros (r & -> & F). inversion F. rewrite app_nil_r. reflexivity.
  - split.
    + intros E. apply bind_Some in E. destruct E as (c & Ec & E).
      apply IH in E. destruct E as (r & -> & F).
      exists (c :: r). unfold std_vector.push_back.
      rewrite <- app_assoc. auto.
    + intros (r & -> & F). inversion F as [|a' c r1' r' Ec F' E1 E2].
      subst. rewrite Ec. simpl. apply IH. exists r'.
      unfold std_vector.push_back. rewrite <- app_assoc. auto.
Qed.

(** ** The dot product *)

Lemma operator_mul_Vector_fold {T : Type} `{ScalarType T} {Dim : nat}
    (a b : Vector T Dim) :
  has_dim a -> has_dim b -> Z.of_nat Dim < size_t.modulus ->
  operator_mul_Vector a b = Spec.sum_of_products (vec a) (vec b).
Proof.
  unfold has_dim. intros Ha Hb HDim.
  unfold operator_mul_Vector, for_size_t, std_vector.size, Spec.sum_of_products.
  rewrite Nat2Z.id.
  exact (for_from_list2
           (fun ret ab =>
              p <- mult (fst ab) (snd ab) ;;
              Some (double.add ret (to_Scalar p)))
           (vec a) (vec b) (vec a) [] (vec b) [] double.zero
           eq_refl eq_refl eq_refl (eq_trans Ha (eq_sym Hb))
           ltac:(simpl; lia)).
Qed.

Lemma sum_of_products_double (u v : list Scalar) :
  Spec.sum_of_products u v
  = Some (fold_left
            (fun ret ab => double.add ret (double.mul (fst ab) (snd ab)))
            (combine u v) double.zero).
Proof.
  unfold Spec.sum_of_products. apply foldM_total.
  intros s ab. reflexivity.
Qed.

(** C2. The dot product of two vectors of the same dimension is the scalar
    obtained by adding the products [a[i]*b[i]], for [i] from [0] to
    [Dim - 1], to [0.0]; on doubles this is the left-to-right sum of the
    rounded products, and [(1,2,3)] dot [(4,5,6)] is [32.0]. *)
Theorem dot_is_sum_of_products :
  forall (T : Type) (inst : ScalarType T) (Dim : nat) (a b : Vector T Dim),
    has_dim a -> has_dim b -> Z.of_nat Dim < size_t.modulus ->
    operator_mul_Vector a b = Spec.sum_of_products (vec a) (vec b)
    /\ (forall u v : list Scalar,
          Spec.sum_of_products u v
          = Some (fold_left
                    (fun ret ab =>
                       double.add ret (double.mul (fst ab) (snd ab)))
                    (combine u v) double.zero))
    /\ operator_mul_Vector
         (mkVector3d (double.of_Z 1) (double.of_Z 2) (double.of_Z 3))
         (mkVector3d (double.of_Z 4) (double.of_Z 5) (double.of_Z 6))
       = Some (double.of_Z 32).
Proof.
  intros T inst Dim a b Ha Hb HDim. split; [|split].
  - apply operator_mul_Vector_fold; assumption.
  - exact sum_of_products_double.
  - vm_compute. reflexivity.
Qed.

Lemma dot_is_sum_of_products_witness :
  let a := mkVector3d (double.of_Z 1) (double.of_Z 2) (double.of_Z 3) in
  let b := mkVector3d (double.of_Z 4) (double.of_Z 5) (double.of_Z 6) in
  operator_mul_Vector a b = Spec.sum_of_products (vec a) (vec b).
Proof.
  intros a b.
  apply (dot_is_sum_of_products Scalar ScalarType_double 3 a b);
    reflexivity.
Defined.

(** ** The cross product *)

(** C1. The cross product of two 3-dimensional vectors has the components
    [a1*b2 - a2*b1], [a2*b0 - a0*b2] and [a0*b1 - a1*b0], in this order, each
    component of the left operand being taken as a [Scalar]; for vectors of
    doubles these are the components themselves, and [(1,0,0)] cross
    [(0,1,0)] is [(0,0,1)]. *)
Theorem cross_components :
  forall (T : Type) (inst : ScalarType T)
         (a : Vector T 3) (b : Vector Scalar 3),
    has_dim a -> has_dim b ->
    (exists a0 a1 a2 b0 b1 b2,
        vec a = [a0; a1; a2] /\ vec b = [b0; b1; b2] /\
        x a b = Some (mkVector3d
          (double.sub (double.mul (to_Scalar a1) b2)
                      (double.mul (to_Scalar a2) b1))
          (double.sub (double.mul (to_Scalar a2) b0)
                      (double.mul (to_Scalar a0) b2))
          (double.sub (double.mul (to_Scalar a0) b1)
                      (double.mul (to_Scalar a1) b0))))
    /\ (forall a0 a1 a2 b0 b1 b2 : Scalar,
          x (mkVector3d a0 a1 a2) (mkVector3d b0 b1 b2)
          = Some (mkVector3d
              (double.sub (double.mul a1 b2) (double.mul a2 b1))
              (double.sub (double.mul a2 b0) (double.mul a0 b2))
              (double.sub (double.mul a0 b1) (double.mul a1 b0))))
    /\ x (mkVector3d (double.of_Z 1) (double.of_Z 0) (double.of_Z 0))
         (mkVector3d (double.of_Z 0) (double.of_Z 1) (double.of_Z 0))
       = Some (mkVector3d (double.of_Z 0) (double.of_Z 0) (double.of_Z 1)).
Proof.
  intros T inst [va] [vb]. unfold has_dim. simpl. intros Ha Hb.
  split; [|split].
  - destruct va as [|a0 [|a1 [|a2 [|? ?]]]]; try discriminate.
    destruct vb as [|b0 [|b1 [|b2 [|? ?]]]]; try discriminate.
    exists a0, a1, a2, b0, b1, b2. repeat split.
  - intros. reflexivity.
  - vm_compute. reflexivity.
Qed.

Lemma cross_components_witness :
  exists a0 a1 a2 b0 b1 b2 : Scalar,
    [double.of_Z 1; double.of_Z 0; double.of_Z 0] = [a0; a1; a2] /\
    [double.of_Z 0; double.of_Z 1; double.of_Z 0] = [b0; b1; b2] /\
    x (mkVector3d (double.of_Z 1) (double.of_Z 0) (double.of_Z 0))
      (mkVector3d (double.of_Z 0) (double.of_Z 1) (double.of_Z 0))
    = Some (mkVector3d
        (double.sub (double.mul a1 b2) (double.mul a2 b1))
        (double.sub (double.mul a2 b0) (double.mul a0 b2))
        (double.sub (double.mul a0 b1) (double.mul a1 b0))).
Proof.
  apply (cross_components Scalar ScalarType_double
           (mkVector3d (double.of_Z 1) (double.of_Z 0) (double.of_Z 0))
           (mkVector3d (double.of_Z 0) (double.of_Z 1) (double.of_Z 0)));
    reflexivity.
Defined.

(** ** Signs in binary64 arithmetic *)

Section Rounding.

Variables prec emax : Z.

Lemma shr_1_nonneg (mrs : shr_record) :
  0 <= shr_m mrs -> 0 <= shr_m (shr_1 mrs).
Proof.
  destruct mrs as [m r st]. simpl.
  destruct m as [|[p|p|]|[p|p|]]; simpl; lia.
Qed.

Lemma iter_pos_invariant {A : Type} (f : A -> A) (P : A -> Prop) :
  (forall a, P a -> P (f a)) ->
  forall (p : positive) (a : A), P a -> P (iter_pos f p a).
Proof.
  intros Hf. induction p as [p IH|p IH|]; intros a Pa; simpl; auto.
Qed.

Lemma shr_nonneg (mrs : shr_record) (e n : Z) :
  0 <= shr_m mrs -> 0 <= shr_m (fst (shr mrs e n)).
Proof.
  intros Hm. destruct n as [|p|p]; simpl; try exact Hm.
  apply (iter_pos_invariant shr_1 (fun r => 0 <= shr_m r));
    [exact shr_1_nonneg | exact Hm].
Qed.

Lemma shr_fexp_nonneg (m e : Z) (l : location) :
  0 <= m -> 0 <= shr_m (fst (shr_fexp prec emax m e l)).
Proof.
  intros Hm. unfold shr_fexp. apply shr_nonneg.
  destruct l as [|[| |]]; simpl; exact Hm.
Qed.

Lemma round_nearest_even_nonneg (m : Z) (l : location) :
  0 <= m -> 0 <= round_nearest_even m l.
Proof.
  intros Hm. destruct l as [|[| |]]; simpl; try lia.
  destruct (Z.even m); lia.
Qed.

Lemma binary_round_aux_nonneg (mx ex : Z) (lx : location) :
  0 <= mx ->
  double.is_nonneg (binary_round_aux prec emax false mx ex lx) = true.
Proof.
  intros Hm. unfold binary_round_aux.
  pose proof (shr_fexp_nonneg mx ex lx Hm) as H1.
  destruct (shr_fexp prec emax mx ex lx) as [mrs' e']. simpl in H1.
  pose proof (shr_fexp_nonneg
                (round_nearest_even (shr_m mrs') (loc_of_shr_record mrs'))
                e' loc_Exact
                (round_nearest_even_nonneg _ _ H1)) as H2.
  destruct (shr_fexp prec emax _ e' loc_Exact) as [mrs'' e'']. simpl in H2.
  destruct (shr_m mrs'') as [|m|m]; simpl.
  - reflexivity.
  - destruct (e'' <=? emax - prec); reflexivity.
  - lia.
Qed.

Lemma binary_round_nonneg (m : positive) (e : Z) :
  double.is_nonneg (binary_round prec emax false m e) = true.
Proof.
  unfold binary_round.
  destruct (shl_align m e _) as [mz ez].
  apply binary_round_aux_nonneg. lia.
Qed.

Lemma binary_normalize_nonneg (m e : Z) (szero : bool) :
  0 <= m -> double.is_nonneg (binary_normalize prec emax m e szero) = true.
Proof.
  intros Hm. destruct m as [|m|m]; simpl.
  - reflexivity.
  - apply binary_round_nonneg.
  - lia.
Qed.

Lemma SFmul_self_nonneg (d : spec_float) :
  double.is_nan d = false ->
  double.is_nonneg (SFmul prec emax d d) = true.
Proof.
  destruct d as [sg|sg| |sg m e]; simpl; try discriminate; intros _.
  - reflexivity.
  - destruct sg; reflexivity.
  - destruct sg; simpl; apply binary_round_aux_nonneg; lia.
Qed.

Lemma SFadd_nonneg (a b : spec_float) :
  double.is_nonneg a = true -> double.is_nonneg b = true ->
  double.is_nonneg (SFadd prec emax a b) = true.
Proof.
  destruct a as [sa|[|]| |[|] ma ea]; simpl; try discriminate;
    destruct b as [sb|[|]| |[|] mb eb]; simpl; try discriminate;
    intros _ _; try reflexivity.
  - destruct sa, sb; reflexivity.
  - apply binary_round_nonneg.
Qed.

Lemma SFsqrt_positive_nonneg (m : positive) (e : Z) :
  double.is_nonneg (SFsqrt prec emax (S754_finite false m e)) = true.
Proof.
  simpl. unfold SFsqrt_core_binary.
  set (m' := match e - 2 * _ with Z0 => _ | Zpos _ => _ | Zneg _ => _ end).
  assert (Hm' : 0 <= m').
  { subst m'. destruct (e - 2 * _) as [|p|p]; try lia.
    apply Z.shiftl_nonneg. lia. }
  pose proof (Z.sqrtrem_spec m' Hm') as Hs.
  destruct (Z.sqrtrem m') as [q r].
  apply binary_round_aux_nonneg. lia.
Qed.

(** A square root is a NaN or is not negative. *)
Lemma SFsqrt_nonneg_or_nan (d : spec_float) :
  double.is_nan (SFsqrt prec emax d) = false ->
  double.is_nonneg (SFsqrt prec emax d) = true.
Proof.
  destruct d as [sg|[|]| |[|] m e];
    try (simpl; discriminate); try (simpl; reflexivity).
  intros _. apply SFsqrt_positive_nonneg.
Qed.

Lemma SFsqrt_nonneg (d : spec_float) :
  double.is_nonneg d = true ->
  double.is_nonneg (SFsqrt prec emax d) = true.
Proof.
  destruct d as [sg|[|]| |[|] m e];
    try (simpl; discriminate); try (simpl; reflexivity).
  intros _. apply SFsqrt_positive_nonneg.
Qed.

End Rounding.

Lemma SFsub_self_finite (prec emax : Z) (d : spec_float) :
  double.is_finite d = true ->
  SFsub prec emax d d = S754_zero false.
Proof.
  destruct d as [[|]|sg| |sg m e]; simpl; try discriminate; intros _;
    try reflexivity.
  rewrite Z.sub_diag. reflexivity.
Qed.

Lemma geb_zero_nonneg (d : Scalar) :
  double.geb d double.zero = true <-> double.is_nonneg d = true.
Proof.
  destruct d as [sg|[|]| |[|] m e]; simpl; split;
    try discriminate; try reflexivity.
Qed.

(** ** The length *)

Lemma combine_self {A : Type} (l : list A) :
  combine l l = map (fun c => (c, c)) l.
Proof.
  induction l as [|c l IH]; simpl; [|rewrite IH]; reflexivity.
Qed.

Lemma length_sqrt_dot {T : Type} `{ScalarType T} {Dim : nat}
    (a : Vector T Dim) :
  length a = (d <- operator_mul_Vector a a ;; Some (double.sqrt d)).
Proof. reflexivity. Qed.

Lemma length_sqrt_sum {T : Type} `{ScalarType T} {Dim : nat}
    (a : Vector T Dim) :
  has_dim a -> Z.of_nat Dim < size_t.modulus ->
  length a
  = (d <- Spec.sum_of_products (vec a) (vec a) ;; Some (double.sqrt d)).
Proof.
  intros Ha HDim. rewrite length_sqrt_dot.
  rewrite operator_mul_Vector_fold by assumption. reflexivity.
Qed.

(** The length is not negative as soon as the square of each component,
    taken in [T] and converted to [Scalar], is not. *)
Lemma length_nonneg {T : Type} `{ScalarType T} {Dim : nat}
    (a : Vector T Dim) :
  has_dim a -> Z.of_nat Dim < size_t.modulus ->
  Forall (fun c => forall p, mult c c = Some p ->
                             double.is_nonneg (to_Scalar p) = true) (vec a) ->
  forall r, length a = Some r -> double.geb r double.zero = true.
Proof.
  intros Ha HDim Hsq r Hr. apply geb_zero_nonneg.
  rewrite length_sqrt_sum in Hr by assumption.
  apply bind_Some in Hr. destruct Hr as (d & Hd & Hr).
  injection Hr as <-. apply SFsqrt_nonneg.
  unfold Spec.sum_of_products in Hd.
  revert Hd. apply foldM_invariant with
    (P := fun s => double.is_nonneg s = true)
    (Q := fun ab : T * T => forall p, mult (fst ab) (snd ab) = Some p ->
                      double.is_nonneg (to_Scalar p) = true).
  - intros s ab s' Ps Qab E. apply bind_Some in E.
    destruct E as (p & Ep & E). injection E as <-.
    apply SFadd_nonneg; [exact Ps | exact (Qab p Ep)].
  - rewrite combine_self. apply Forall_map. exact Hsq.
  - reflexivity.
Qed.

Lemma sum_of_products_zero (n : nat) :
  Spec.sum_of_products (repeat double.zero n) (repeat double.zero n)
  = Some double.zero.
Proof.
  rewrite sum_of_products_double. f_equal.
  rewrite combine_self.
  induction n as [|n IH]; simpl; [reflexivity | exact IH].
Qed.

(** C3. The length of a vector is the square root of its dot product with
    itself, that is of the sum of the squares of its components; the root
    taken is the one that is not negative; the length of [(3,4,0)] is
    exactly [5.0]. *)
Theorem length_is_sqrt_of_dot :
  forall (T : Type) (inst : ScalarType T) (Dim : nat) (a : Vector T Dim),
    has_dim a -> Z.of_nat Dim < size_t.modulus ->
    length a = (d <- operator_mul_Vector a a ;; Some (double.sqrt d))
    /\ length a
       = (d <- Spec.sum_of_products (vec a) (vec a) ;; Some (double.sqrt d))
    /\ (forall r, length a = Some r -> double.is_nan r = false ->
                  double.geb r double.zero = true)
    /\ length (mkVector3d (double.of_Z 3) (double.of_Z 4) (double.of_Z 0))
       = Some (double.of_Z 5).
Proof.
  intros T inst Dim a Ha HDim. repeat split.
  - apply length_sqrt_sum; assumption.
  - intros r Hr Hnan. apply geb_zero_nonneg.
    rewrite length_sqrt_dot in Hr. apply bind_Some in Hr.
    destruct Hr as (d & _ & Hr). injection Hr as <-.
    apply SFsqrt_nonneg_or_nan. exact Hnan.
Qed.

Lemma length_is_sqrt_of_dot_witness :
  let a := mkVector3d (double.of_Z 3) (double.of_Z 4) (double.of_Z 0) in
  length a = (d <- operator_mul_Vector a a ;; Some (double.sqrt d)).
Proof.
  intros a.
  apply (length_is_sqrt_of_dot Scalar ScalarType_double 3 a);
    reflexivity.
Defined.

(** C9, as stated, fails on a vector with a NaN component: its length is a
    NaN, and [NaN >= 0] is false. *)
Lemma length_of_nan_vector :
  has_dim (mkVector3d NaN double.zero double.zero)
  /\ length (mkVector3d NaN double.zero double.zero) = Some NaN
  /\ double.geb NaN double.zero = false.
Proof. repeat split. Qed.

(** C9, amended. The length of a vector is at least [0] when no component
    is a NaN: for a vector of doubles without NaN the length is defined and
    at least [0] (it may be plus infinity); for a vector of [int] or of
    [unsigned] it is at least [0] whenever it is defined.  The length of
    the zero vector is exactly [0]. *)
Theorem length_nonneg_without_nan :
  forall (Dim : nat) (a : Vector Scalar Dim) (ai : Vector int.t Dim)
         (au : Vector unsigned.t Dim),
    has_dim a -> has_dim ai -> has_dim au ->
    Z.of_nat Dim < size_t.modulus ->
    Forall (fun c => double.is_nan c = false) (vec a) ->
    (exists r, length a = Some r /\ double.geb r double.zero = true)
    /\ (forall r, length ai = Some r -> double.geb r double.zero = true)
    /\ (forall r, length au = Some r -> double.geb r double.zero = true)
    /\ length (Spec.zeroVector double.zero Dim) = Some double.zero.
Proof.
  intros Dim a ai au Ha Hai Hau HDim Hnan. repeat split.
  - destruct (length a) as [r|] eqn:Hr.
    + exists r. split; [reflexivity|].
      apply (length_nonneg a Ha HDim); [|exact Hr].
      eapply Forall_impl; [|exact Hnan].
      intros c Hc p Hp. injection Hp as <-.
      apply SFmul_self_nonneg. exact Hc.
    + rewrite length_sqrt_sum in Hr by assumption.
      rewrite sum_of_products_double in Hr. discriminate.
  - apply (length_nonneg ai Hai HDim).
    apply Forall_forall. intros c _ p Hp. simpl in Hp.
    unfold int.checked in Hp.
    destruct (int.in_range (c * c)); [|discriminate].
    injection Hp as <-. apply binary_normalize_nonneg. nia.
  - apply (length_nonneg au Hau HDim).
    apply Forall_forall. intros c _ p Hp. simpl in Hp.
    injection Hp as <-. apply binary_normalize_nonneg.
    apply Z.mod_pos_bound. reflexivity.
  - rewrite length_sqrt_sum.
    + simpl. rewrite sum_of_products_zero. reflexivity.
    + unfold has_dim. simpl. apply repeat_length.
    + exact HDim.
Qed.

Lemma length_nonneg_without_nan_witness :
  exists r,
    length (mkVector3d (double.of_Z 3) (double.of_Z (-4)) infinity) = Some r
    /\ double.geb r double.zero = true.
Proof.
  apply (length_nonneg_without_nan 3
           (mkVector3d (double.of_Z 3) (double.of_Z (-4)) infinity)
           (Vector_of_vec [3; -4; 0])
           (Vector_of_vec [unsigned.mk 3; unsigned.mk 4; unsigned.mk 0]));
    try reflexivity.
  repeat constructor.
Defined.

(** ** Addition and subtraction *)

Lemma operator_plus_zipM {T : Type} `{ScalarType T} {Dim : nat}
    (a b : Vector T Dim) :
  operator_plus a b
  = (r <- zipM plus (vec a) (vec b) ;; Some (Vector_of_vec r)).
Proof.
  unfold operator_plus. rewrite transform2_zipM.
  destruct (zipM plus (vec a) (vec b)); reflexivity.
Qed.

Lemma operator_minus_zipM {T : Type} `{ScalarType T} {Dim : nat}
    (a b : Vector T Dim) :
  operator_minus a b
  = (r <- zipM minus (vec a) (vec b) ;; Some (Vector_of_vec r)).
Proof.
  unfold operator_minus. rewrite transform2_zipM.
  destruct (zipM minus (vec a) (vec b)); reflexivity.
Qed.

Lemma zipM_self_constant {A C : Type} (op : A -> A -> option C) (z : C) :
  forall l : list A,
    Forall (fun c => op c c = Some z) l ->
    zipM op l l = Some (repeat z (List.length l)).
Proof.
  induction 1 as [|c l Hc _ IH]; simpl.
  - reflexivity.
  - rewrite Hc. simpl. rewrite IH. reflexivity.
Qed.

(** Subtracting a vector from itself gives the vector of [z] when each
    component minus itself is [z]. *)
Lemma operator_minus_self {T : Type} `{ScalarType T} {Dim : nat}
    (a : Vector T Dim) (z : T) :
  has_dim a ->
  Forall (fun c => minus c c = Some z) (vec a) ->
  operator_minus a a = Some (Spec.zeroVector z Dim).
Proof.
  unfold has_dim. intros Ha Hz.
  rewrite operator_minus_zipM.
  rewrite (zipM_self_constant minus z _ Hz). simpl.
  rewrite Ha. reflexivity.
Qed.

(** C8, as stated, fails on a vector with an infinite component:
    [inf - inf] is a NaN, which is not [0]. *)
Lemma minus_self_of_infinite_vector :
  has_dim (mkVector3d infinity double.zero double.zero)
  /\ operator_minus (mkVector3d infinity double.zero double.zero)
                    (mkVector3d infinity double.zero double.zero)
     = Some (mkVector3d NaN double.zero double.zero)
  /\ mkVector3d NaN double.zero double.zero
     <> Spec.zeroVector double.zero 3
  /\ double.eqb NaN double.zero = false.
Proof.
  repeat split. discriminate.
Qed.

(** C8, amended. Subtracting a vector from itself gives the zero vector
    when every component is finite: for doubles, when no component is an
    infinity or a NaN (the zeros obtained are [+0.0]); for [int] and
    [unsigned], always. *)
Theorem minus_self_is_zero_when_finite :
  forall (Dim : nat) (a : Vector Scalar Dim) (ai : Vector int.t Dim)
         (au : Vector unsigned.t Dim),
    has_dim a -> has_dim ai -> has_dim au ->
    Forall (fun c => double.is_finite c = true) (vec a) ->
    operator_minus a a = Some (Spec.zeroVector double.zero Dim)
    /\ operator_minus ai ai = Some (Spec.zeroVector 0 Dim)
    /\ operator_minus au au = Some (Spec.zeroVector (unsigned.mk 0) Dim).
Proof.
  intros Dim a ai au Ha Hai Hau Hfin. repeat split.
  - apply operator_minus_self; [exact Ha|].
    eapply Forall_impl; [|exact Hfin].
    intros c Hc. simpl. f_equal. apply SFsub_self_finite. exact Hc.
  - apply operator_minus_self; [exact Hai|].
    apply Forall_forall. intros c _. simpl.
    rewrite Z.sub_diag. reflexivity.
  - apply operator_minus_self; [exact Hau|].
    apply Forall_forall. intros c _. simpl.
    rewrite Z.sub_diag. reflexivity.
Qed.

Lemma minus_self_is_zero_when_finite_witness :
  let a := mkVector3d (double.of_Z 3) one_half (double.of_Z (-7)) in
  operator_minus a a = Some (Spec.zeroVector double.zero 3).
Proof.
  intros a.
  apply (minus_self_is_zero_when_finite 3 a
           (Vector_of_vec [3; -4; 0])
           (Vector_of_vec [unsigned.mk 3; unsigned.mk 4; unsigned.mk 0]));
    try reflexivity.
  repeat constructor.
Defined.

(** Associativity of the element-wise addition follows from that of the
    addition of the components, undefined results included. *)
Lemma zipM_assoc {A : Type} (op : A -> A -> option A) :
  (forall p q r : A,
      (pq <- op p q ;; op pq r) = (qr <- op q r ;; op p qr)) ->
  forall a b c : list A,
    List.length a = List.length b -> List.length b = List.length c ->
    (ab <- zipM op a b ;; zipM op ab c)
    = (bc <- zipM op b c ;; zipM op a bc).
Proof.
  intros law. induction a as [|p a IH]; intros b c Hab Hbc.
  - destruct b; [|discriminate]. destruct c; [|discriminate]. reflexivity.
  - destruct b as [|q b]; [discriminate|].
    destruct c as [|r c]; [discriminate|].
    simpl in Hab, Hbc.
    specialize (IH b c ltac:(lia) ltac:(lia)).
    specialize (law p q r).
    simpl.
    destruct (op p q) as [pq|]; simpl in *.
    + destruct (zipM op a b) as [ab|]; simpl in *.
      * rewrite law.
        destruct (op q r) as [qr|]; simpl in *; [|reflexivity].
        rewrite IH.
        destruct (zipM op b c) as [bc|]; simpl in *; [reflexivity|].
        destruct (op p qr); reflexivity.
      * destruct (op q r) as [qr|]; simpl in *; [|reflexivity].
        destruct (zipM op b c) as [bc|]; simpl in *; [|reflexivity].
        destruct (op p qr); simpl; [|reflexivity].
        rewrite <- IH. reflexivity.
    + destruct (op q r) as [qr|]; simpl in *; [|reflexivity].
      destruct (zipM op b c) as [bc|]; simpl in *; [|reflexivity].
      rewrite <- law. reflexivity.
Qed.

Lemma operator_plus_assoc {T : Type} `{ScalarType T} {Dim : nat}
    (a b c : Vector T Dim) :
  (forall p q r : T,
      (pq <- plus p q ;; plus pq r) = (qr <- plus q r ;; plus p qr)) ->
  has_dim a -> has_dim b -> has_dim c ->
  (ab <- operator_plus a b ;; operator_plus ab c)
  = (bc <- operator_plus b c ;; operator_plus a bc).
Proof.
  unfold has_dim. intros law Ha Hb Hc.
  pose proof (zipM_assoc plus law (vec a) (vec b) (vec c)
                ltac:(congruence) ltac:(congruence)) as E.
  rewrite (operator_plus_zipM a b), (operator_plus_zipM b c).
  destruct (zipM plus (vec a) (vec b)) as [ab|]; simpl in *;
    destruct (zipM plus (vec b) (vec c)) as [bc|]; simpl in *;
    rewrite ?operator_plus_zipM; simpl; rewrite ?E; try reflexivity.
  rewrite <- E. reflexivity.
Qed.

Lemma unsigned_plus_assoc (p q r : unsigned.t) :
  (pq <- plus p q ;; plus pq r) = (qr <- plus q r ;; plus p qr).
Proof.
  simpl. unfold unsigned.wrap. simpl. f_equal. f_equal.
  rewrite Zplus_mod_idemp_l, Zplus_mod_idemp_r.
  f_equal. lia.
Qed.

Lemma zipM_value {A B C : Type} (op : A -> B -> option C) (f : A -> B -> C) :
  (forall a b c, op a b = Some c -> c = f a b) ->
  forall (l1 : list A) (l2 : list B) (r : list C),
    zipM op l1 l2 = Some r ->
    r = map (fun ab => f (fst ab) (snd ab)) (combine l1 l2).
Proof.
  intros Hop. induction l1 as [|a l1 IH]; intros l2 r; simpl.
  - intros E. injection E as <-. reflexivity.
  - destruct l2 as [|b l2]; [discriminate|].
    intros E. apply bind_Some in E. destruct E as (c & Ec & E).
    apply bind_Some in E. destruct E as (r' & Er & E).
    injection E as <-. simpl.
    rewrite (Hop _ _ _ Ec), (IH _ _ Er). reflexivity.
Qed.

Lemma map_add_assoc :
  forall a b c : list Z,
    List.length a = List.length b -> List.length b = List.length c ->
    map (fun xy => fst xy + snd xy)
        (combine (map (fun xy => fst xy + snd xy) (combine a b)) c)
    = map (fun xy => fst xy + snd xy)
        (combine a (map (fun xy => fst xy + snd xy) (combine b c))).
Proof.
  induction a as [|p a IH]; intros b c Hab Hbc.
  - reflexivity.
  - destruct b as [|q b]; [discriminate|].
    destruct c as [|r c]; [discriminate|].
    simpl in *. rewrite IH by lia. f_equal. lia.
Qed.

Lemma int_plus_value (a b c : int.t) : plus a b = Some c -> c = a + b.
Proof.
  simpl. unfold int.checked.
  destruct (int.in_range (a + b)); [|discriminate].
  intros E. injection E as <-. reflexivity.
Qed.

Lemma operator_plus_unsigned {Dim : nat} (a b : Vector unsigned.t Dim) :
  List.length (vec a) = List.length (vec b) ->
  operator_plus a b
  = Some (Vector_of_vec
            (map (fun pq => unsigned.wrap (unsigned.value (fst pq)
                                           + unsigned.value (snd pq)))
                 (combine (vec a) (vec b)))).
Proof.
  intros Hlen. rewrite operator_plus_zipM.
  rewrite (zipM_total plus
             (fun p q => unsigned.wrap (unsigned.value p + unsigned.value q)))
    by (reflexivity || exact Hlen).
  reflexivity.
Qed.

(** C7, as stated, fails on doubles: [(2^53 + 1) + 1] is [2^53], the sum
    [2^53 + 1] being rounded to [2^53], and [2^53 + (1 + 1)] is
    [2^53 + 2]. *)
Lemma plus_not_associative_on_doubles :
  let a := mkVector3d two_pow_53 double.zero double.zero in
  let b := mkVector3d (double.of_Z 1) double.zero double.zero in
  let c := mkVector3d (double.of_Z 1) double.zero double.zero in
  (ab <- operator_plus a b ;; operator_plus ab c)
  = Some (mkVector3d two_pow_53 double.zero double.zero)
  /\ (bc <- operator_plus b c ;; operator_plus a bc)
     = Some (mkVector3d (double.of_Z (2 ^ 53 + 2)) double.zero double.zero)
  /\ double.eqb two_pow_53 (double.of_Z (2 ^ 53 + 2)) = false.
Proof.
  repeat split.
Qed.

(** C7, amended. Vector addition is associative for the integer component
    types: for [unsigned], whose addition wraps, both groupings are defined
    and equal; for [int], both groupings are equal whenever both are
    defined. *)
Theorem plus_associative_on_integers :
  forall (Dim : nat) (a b c : Vector unsigned.t Dim)
         (ai bi ci : Vector int.t Dim),
    has_dim a -> has_dim b -> has_dim c ->
    has_dim ai -> has_dim bi -> has_dim ci ->
    (ab <- operator_plus a b ;; operator_plus ab c)
    = (bc <- operator_plus b c ;; operator_plus a bc)
    /\ (exists r, (ab <- operator_plus a b ;; operator_plus ab c) = Some r)
    /\ (forall l r,
          (ab <- operator_plus ai bi ;; operator_plus ab ci) = Some l ->
          (bc <- operator_plus bi ci ;; operator_plus ai bc) = Some r ->
          l = r).
Proof.
  intros Dim a b c ai bi ci Ha Hb Hc Hai Hbi Hci. split; [|split].
  - apply operator_plus_assoc; try assumption.
    exact unsigned_plus_assoc.
  - rewrite (operator_plus_unsigned a b)
      by (unfold has_dim in *; congruence).
    simpl.
    rewrite operator_plus_unsigned.
    + eauto.
    + unfold has_dim in *. simpl.
      rewrite length_map, length_combine. lia.
  - unfold has_dim in *. intros l r Hl Hr.
    apply bind_Some in Hl. destruct Hl as (ab & Hab & Hl).
    apply bind_Some in Hr. destruct Hr as (bc & Hbc & Hr).
    rewrite operator_plus_zipM in Hab, Hl, Hbc, Hr.
    apply bind_Some in Hab. destruct Hab as (vab & Hab & E).
    injection E as <-.
    apply bind_Some in Hbc. destruct Hbc as (vbc & Hbc & E).
    injection E as <-.
    apply bind_Some in Hl. destruct Hl as (vl & Hl & E).
    injection E as <-.
    apply bind_Some in Hr. destruct Hr as (vr & Hr & E).
    injection E as <-.
    simpl in Hl, Hr.
    apply (zipM_value plus Z.add int_plus_value) in Hab, Hbc, Hl, Hr.
    subst. f_equal. apply map_add_assoc.
    + exact (eq_trans Hai (eq_sym Hbi)).
    + exact (eq_trans Hbi (eq_sym Hci)).
Qed.

Lemma plus_associative_on_integers_witness :
  let a : Vector unsigned.t 3 :=
    Vector_of_vec [unsigned.mk 4294967295; unsigned.mk 7; unsigned.mk 0] in
  let b : Vector unsigned.t 3 :=
    Vector_of_vec [unsigned.mk 1; unsigned.mk 8; unsigned.mk 2] in
  let c : Vector unsigned.t 3 :=
    Vector_of_vec [unsigned.mk 5; unsigned.mk 9; unsigned.mk 3] in
  let ai : Vector int.t 3 := Vector_of_vec [1; 2; 3] in
  let bi : Vector int.t 3 := Vector_of_vec [4; 5; 6] in
  let ci : Vector int.t 3 := Vector_of_vec [7; 8; 9] in
  let v : Vector int.t 3 := Vector_of_vec [12; 15; 18] in
  (ab <- operator_plus a b ;; operator_plus ab c)
  = (bc <- operator_plus b c ;; operator_plus a bc)
  /\ (ab <- operator_plus ai bi ;; operator_plus ab ci) = Some v
  /\ (bc <- operator_plus bi ci ;; operator_plus ai bc) = Some v
  /\ v = v.
Proof.
  intros a b c ai bi ci v.
  destruct (plus_associative_on_integers 3 a b c ai bi ci
              eq_refl eq_refl eq_refl eq_refl eq_refl eq_refl)
    as (Hu & _ & Hi).
  split; [exact Hu|].
  split; [reflexivity|]. split; [reflexivity|].
  exact (Hi v v eq_refl eq_refl).
Defined.

(** ** Multiplication by a scalar *)

Lemma transform_total {A C : Type} (op : A -> option C) (f : A -> C) :
  (forall a, op a = Some (f a)) ->
  forall (r1 : list A) (ret : list C),
    std_vector.transform op r1 ret = Some (ret ++ map f r1).
Proof.
  intros Hop. induction r1 as [|a r1 IH]; intros ret; simpl.
  - rewrite app_nil_r. reflexivity.
  - rewrite Hop. simpl. rewrite IH. unfold std_vector.push_back.
    rewrite <- app_assoc. reflexivity.
Qed.

(** C6, as stated, fails for an integer component type: for the
    [Vector<int, 3>] built from [3], [-3] and [0] and the scalar [0.5], the
    products [0.5 * 3] and [0.5 * -3] are [1.5] and [-1.5] in [Scalar], and
    the components stored are the [int]s [1] and [-1]. *)
Lemma scale_truncates_int :
  let a : Vector int.t 3 := Vector_ctor [3; -3; 0] eq_refl in
  has_dim a
  /\ operator_mul_Scalar a one_half = Some (Vector_ctor [1; -1; 0] eq_refl)
  /\ double.eqb (to_Scalar (1 : int.t))
                (double.mul one_half (to_Scalar (3 : int.t))) = false
  /\ to_Scalar (1 : int.t) <> double.mul one_half (to_Scalar (3 : int.t))
  /\ double.eqb (to_Scalar (-1 : int.t))
                (double.mul one_half (to_Scalar (-3 : int.t))) = false
  /\ to_Scalar (-1 : int.t)
     <> double.mul one_half (to_Scalar (-3 : int.t)).
Proof.
  repeat split; discriminate.
Qed.

(** C6, amended. Each component of [a * s] is the product of [s] and of the
    component of [a] taken as a [Scalar], converted to [T]: the result is
    defined exactly when each conversion is, and holds the converted
    products.  For a vector of doubles, neither conversion does anything:
    the components are the products [s * a[i]]. *)
Theorem scale_components :
  forall (T : Type) (inst : ScalarType T) (Dim : nat)
         (a r : Vector T Dim) (u : Vector Scalar Dim) (s : Scalar),
    (operator_mul_Scalar a s = Some r <->
     Forall2 (fun c ri => of_Scalar (double.mul s (to_Scalar c)) = Some ri)
             (vec a) (vec r))
    /\ operator_mul_Scalar u s
       = Some (Vector_of_vec (map (double.mul s) (vec u))).
Proof.
  intros T inst Dim a [vr] u s. unfold operator_mul_Scalar. simpl. split.
  - split.
    + intros E. apply bind_Some in E. destruct E as (out & E & E').
      injection E' as <-.
      apply transform_Forall2 in E. destruct E as (r & -> & F). exact F.
    + intros F.
      assert (E : std_vector.transform
                    (fun elem => of_Scalar (double.mul s (to_Scalar elem)))
                    (vec a) [] = Some vr).
      { apply transform_Forall2. exists vr. auto. }
      rewrite E. reflexivity.
  - rewrite (transform_total _ (double.mul s)) by reflexivity.
    reflexivity.
Qed.

(** ** The number of components *)

Lemma transform_defined {A C : Type} (op : A -> option C) :
  forall (r1 : list A) (ret : list C),
    (forall a, In a r1 -> op a <> None) ->
    exists out, std_vector.transform op r1 ret = Some out.
Proof.
  induction r1 as [|a r1 IH]; intros ret Hop; simpl.
  - eauto.
  - destruct (op a) as [c|] eqn:E.
    + simpl. apply IH. intros a' Hin. apply Hop. right. exact Hin.
    + exfalso. apply (Hop a); [left; reflexivity | exact E].
Qed.

Lemma operator_plus_has_dim {T : Type} `{ScalarType T} {Dim : nat}
    (a b r : Vector T Dim) :
  has_dim a -> operator_plus a b = Some r -> has_dim r.
Proof.
  unfold has_dim. intros Ha E. rewrite operator_plus_zipM in E.
  apply bind_Some in E. destruct E as (v & Ev & E). injection E as <-.
  simpl. rewrite (zipM_length _ _ _ _ Ev). exact Ha.
Qed.

Lemma operator_minus_has_dim {T : Type} `{ScalarType T} {Dim : nat}
    (a b r : Vector T Dim) :
  has_dim a -> operator_minus a b = Some r -> has_dim r.
Proof.
  unfold has_dim. intros Ha E. rewrite operator_minus_zipM in E.
  apply bind_Some in E. destruct E as (v & Ev & E). injection E as <-.
  simpl. rewrite (zipM_length _ _ _ _ Ev). exact Ha.
Qed.

Lemma operator_mul_Scalar_has_dim {T : Type} `{ScalarType T} {Dim : nat}
    (a r : Vector T Dim) (s : Scalar) :
  has_dim a -> operator_mul_Scalar a s = Some r -> has_dim r.
Proof.
  unfold has_dim, operator_mul_Scalar. intros Ha E.
  apply bind_Some in E. destruct E as (v & Ev & E). injection E as <-.
  apply transform_Forall2 in Ev. destruct Ev as (w & -> & F).
  simpl. rewrite <- (Forall2_length F). exact Ha.
Qed.

Lemma x_defined {T : Type} `{ScalarType T}
    (c : Vector T 3) (d : Vector Scalar 3) :
  has_dim c -> has_dim d -> exists r, x c d = Some r /\ has_dim r.
Proof.
  destruct c as [vc], d as [vd]. unfold has_dim. simpl. intros Hc Hd.
  destruct vc as [|c0 [|c1 [|c2 [|? ?]]]]; try discriminate.
  destruct vd as [|d0 [|d1 [|d2 [|? ?]]]]; try discriminate.
  eexists. split; reflexivity.
Qed.

(** C4. A vector built by the constructor stores [Dim] components, and so
    does every vector returned by the addition, the subtraction, the
    multiplication by a scalar and the cross product of vectors that do; the
    first three return a vector whenever the arithmetic on the components
    is defined, the cross product always.  (The operations are functions of
    their operands, which they leave as they are.) *)
Theorem component_count_is_Dim :
  forall (T : Type) (inst : ScalarType T) (Dim : nat)
         (xn : list T) (requires : List.length xn = Dim)
         (a b : Vector T Dim) (s : Scalar)
         (c : Vector T 3) (d : Vector Scalar 3),
    has_dim a -> has_dim b -> has_dim c -> has_dim d ->
    has_dim (Vector_ctor xn requires)
    /\ (forall r, operator_plus a b = Some r -> has_dim r)
    /\ (forall r, operator_minus a b = Some r -> has_dim r)
    /\ (forall r, operator_mul_Scalar a s = Some r -> has_dim r)
    /\ (exists r, x c d = Some r /\ has_dim r)
    /\ ((forall p q, In (p, q) (combine (vec a) (vec b)) ->
                     plus p q <> None) ->
        exists r, operator_plus a b = Some r)
    /\ ((forall p q, In (p, q) (combine (vec a) (vec b)) ->
                     minus p q <> None) ->
        exists r, operator_minus a b = Some r)
    /\ ((forall p, In p (vec a) ->
                   of_Scalar (double.mul s (to_Scalar p)) <> None) ->
        exists r, operator_mul_Scalar a s = Some r).
Proof.
  intros T inst Dim xn requires a b s c d Ha Hb Hc Hd.
  assert (Hlen : List.length (vec a) = List.length (vec b))
    by (unfold has_dim in *; congruence).
  repeat apply conj.
  - exact requires.
  - intros r. apply operator_plus_has_dim. exact Ha.
  - intros r. apply operator_minus_has_dim. exact Ha.
  - intros r. apply operator_mul_Scalar_has_dim. exact Ha.
  - apply x_defined; assumption.
  - intros Hop. rewrite operator_plus_zipM.
    destruct (zipM_defined plus _ _ Hlen Hop) as (r & ->). simpl. eauto.
  - intros Hop. rewrite operator_minus_zipM.
    destruct (zipM_defined minus _ _ Hlen Hop) as (r & ->). simpl. eauto.
  - intros Hop. unfold operator_mul_Scalar.
    destruct (transform_defined _ (vec a) [] Hop) as (r & ->). simpl. eauto.
Qed.

Lemma component_count_is_Dim_witness :
  let a := mkVector3d (double.of_Z 1) (double.of_Z 2) (double.of_Z 3) in
  let b := mkVector3d (double.of_Z 4) (double.of_Z 5) (double.of_Z 6) in
  (exists r, operator_plus a b = Some r /\ has_dim r)
  /\ (exists r, x a b = Some r /\ has_dim r).
Proof.
  intros a b.
  destruct (component_count_is_Dim Scalar ScalarType_double 3
              [double.of_Z 1; double.of_Z 2; double.of_Z 3] eq_refl
              a b one_half a b eq_refl eq_refl eq_refl eq_refl)
    as (_ & Hplus & _ & _ & Hx & Hdef & _).
  split; [|exact Hx].
  destruct Hdef as (r & Hr).
  - intros p q _. discriminate.
  - exists r. split; [exact Hr | exact (Hplus r Hr)].
Defined.

(** ** The rendering *)

Lemma string_append_assoc (s1 s2 s3 : string) :
  ((s1 ++ s2) ++ s3 = s1 ++ (s2 ++ s3))%string.
Proof.
  induction s1 as [|ch s1 IH]; simpl; [|rewrite IH]; reflexivity.
Qed.

Lemma concat_cons_snoc (sep : string) (c : string) (cs : list string)
    (d : string) :
  String.concat sep (c :: cs ++ [d])
  = (c ++ sep ++ String.concat sep (cs ++ [d]))%string.
Proof.
  simpl. destruct (cs ++ [d]) eqn:E; [|reflexivity].
  destruct cs; discriminate.
Qed.

Lemma rendering_fold {T : Type} (ts : T -> string) :
  forall (init : list T) (last : T) (acc : string),
    (fold_left (fun str c => str ++ (ts c ++ ", ")) init acc
       ++ (ts last ++ " ]")
     = acc ++ String.concat ", " (map ts (init ++ [last])) ++ " ]")%string.
Proof.
  induction init as [|c init IH]; intros last acc.
  - reflexivity.
  - simpl fold_left. rewrite IH.
    change (map ts ((c :: init) ++ [last]))
      with (ts c :: map ts (init ++ [last])).
    rewrite map_app. simpl map. rewrite concat_cons_snoc.
    rewrite !string_append_assoc. reflexivity.
Qed.

Lemma size_t_sub_1 (n : nat) :
  Z.of_nat (S n) < size_t.modulus ->
  size_t.sub (Z.of_nat (S n)) 1 = Z.of_nat n.
Proof.
  intros Hn. unfold size_t.sub, size_t.wrap.
  rewrite Z.mod_small; lia.
Qed.

Lemma toString_rendering {T : Type} `{ScalarType T} {Dim : nat}
    (a : Vector T Dim) :
  has_dim a -> (1 <= Dim)%nat -> Z.of_nat Dim < size_t.modulus ->
  toString a = Some (Spec.rendering (map to_string (vec a))).
Proof.
  unfold has_dim. intros Ha H1 HDim.
  assert (Hne : vec a <> []).
  { intros E. rewrite E in Ha. simpl in Ha. lia. }
  destruct (exists_last Hne) as (init & last & Hv).
  unfold toString, std_vector.size. rewrite Hv in *.
  rewrite length_app in *. simpl List.length in *.
  replace (List.length init + 1)%nat with (S (List.length init)) in * by lia.
  rewrite size_t_sub_1 by lia.
  unfold for_size_t. rewrite Nat2Z.id.
  rewrite (for_from_list
             (fun str c => Some (str ++ (to_string c ++ ", "))%string)
             (init ++ [last]) init [] [last] "[ "%string eq_refl)
    by (simpl; lia).
  rewrite (foldM_total _
             (fun str c => (str ++ (to_string c ++ ", "))%string))
    by reflexivity.
  simpl bind. rewrite at_middle. simpl bind.
  rewrite rendering_fold. reflexivity.
Qed.

(** C5. For a vector of at least one component, [toString] returns
    ["[ "], the texts of the components separated by [", "], and [" ]"];
    a vector of doubles built from [1.0], [2.0] and [3.0] gives
    ["[ 1.000000, 2.000000, 3.000000 ]"]; and [operator<<] appends exactly
    this text to the stream. *)
Theorem toString_is_rendering :
  forall (T : Type) (inst : ScalarType T) (Dim : nat) (a : Vector T Dim)
         (os : ostream),
    has_dim a -> (1 <= Dim)%nat -> Z.of_nat Dim < size_t.modulus ->
    toString a = Some (Spec.rendering (map to_string (vec a)))
    /\ operator_shl os a
       = Some (os ++ Spec.rendering (map to_string (vec a)))%string
    /\ toString (mkVector3d (double.of_Z 1) (double.of_Z 2) (double.of_Z 3))
       = Some "[ 1.000000, 2.000000, 3.000000 ]"%string.
Proof.
  intros T inst Dim a os Ha H1 HDim.
  pose proof (toString_rendering a Ha H1 HDim) as E.
  split; [exact E|]. split.
  - unfold operator_shl. rewrite E. reflexivity.
  - vm_compute. reflexivity.
Qed.

Lemma toString_is_rendering_witness :
  toString (Vector_of_vec [7; -12; 0] : Vector int.t 3)
  = Some (Spec.rendering (map to_string ([7; -12; 0] : list int.t))).
Proof.
  apply (toString_is_rendering int.t ScalarType_int 3
           (Vector_of_vec [7; -12; 0]) ""%string);
    [reflexivity | repeat constructor | reflexivity].
Defined.

(** ** The accesses of [toString] *)

Lemma for_size_t_first_undefined {St : Type} (bound : Z)
    (body : Z -> St -> option St) (s : St) :
  0 < bound -> body 0 s = None -> for_size_t bound body s = None.
Proof.
  intros Hb Hbody. unfold for_size_t.
  replace (Z.to_nat bound) with (S (Z.to_nat (bound - 1))) by lia.
  simpl. rewrite Hbody. reflexivity.
Qed.

Lemma size_t_sub_0_1 : size_t.sub 0 1 = 2 ^ 64 - 1.
Proof. reflexivity. Qed.

Lemma toString_empty {T : Type} `{ScalarType T} {Dim : nat}
    (a : Vector T Dim) :
  vec a = [] -> toString a = None.
Proof.
  intros E. unfold toString. rewrite E.
  change (std_vector.size (@nil T)) with 0.
  rewrite for_size_t_first_undefined; reflexivity.
Qed.

(** C10. [toString] reads only components that exist exactly when the
    vector has at least one: then [vec.size() - 1] is [Dim - 1], every index
    from [0] to it, those of the loop and the last one, is below [Dim], and
    a text is returned; for no component, [vec.size() - 1] wraps to
    [2^64 - 1], the loop is entered and reads [vec[0]], which does not
    exist. *)
Theorem toString_in_bounds_iff_nonempty :
  forall (T : Type) (inst : ScalarType T) (Dim : nat) (a : Vector T Dim),
    has_dim a -> Z.of_nat Dim < size_t.modulus ->
    ((exists str, toString a = Some str) <-> (1 <= Dim)%nat)
    /\ ((1 <= Dim)%nat ->
        size_t.sub (std_vector.size (vec a)) 1 = Z.of_nat Dim - 1
        /\ forall i, 0 <= i <= size_t.sub (std_vector.size (vec a)) 1 ->
                     0 <= i < Z.of_nat Dim
                     /\ exists c, std_vector.at_ (vec a) i = Some c)
    /\ (Dim = 0%nat ->
        size_t.sub (std_vector.size (vec a)) 1 = 2 ^ 64 - 1
        /\ std_vector.at_ (vec a) 0 = None
        /\ toString a = None).
Proof.
  intros T inst Dim a Ha HDim.
  assert (Hempty : Dim = 0%nat -> vec a = []).
  { intros ->. apply length_zero_iff_nil. exact Ha. }
  split; [|split].
  - split.
    + intros (str & E). destruct Dim as [|n]; [|lia].
      rewrite (toString_empty a (Hempty eq_refl)) in E. discriminate.
    + intros H1. eexists. apply toString_rendering; assumption.
  - intros H1. destruct Dim as [|n]; [lia|].
    assert (Hsize : std_vector.size (vec a) = Z.of_nat (S n))
      by (unfold std_vector.size; f_equal; exact Ha).
    rewrite Hsize. rewrite size_t_sub_1 by exact HDim. split; [lia|].
    intros i Hi. split; [lia|].
    apply at_in_bounds. rewrite Hsize. lia.
  - intros E0. rewrite (toString_empty a (Hempty E0)).
    rewrite (Hempty E0). repeat split.
Qed.

Lemma toString_in_bounds_iff_nonempty_witness :
  (exists str,
      toString (mkVector3d (double.of_Z 1) (double.of_Z 2) (double.of_Z 3))
      = Some str)
  <-> (1 <= 3)%nat.
Proof.
  apply (toString_in_bounds_iff_nonempty Scalar ScalarType_double 3
           (mkVector3d (double.of_Z 1) (double.of_Z 2) (double.of_Z 3)));
    reflexivity.
Defined.

(** * Further properties of the operations *)

(** ** Binary64 facts used below *)

Lemma SFadd_comm (prec emax : Z) (a b : spec_float) :
  SFadd prec emax a b = SFadd prec emax b a.
Proof.
  destruct a as [sa|sa| |sa ma ea], b as [sb|sb| |sb mb eb];
    try reflexivity;
    try (destruct sa, sb; reflexivity).
  unfold SFadd. rewrite (Z.min_comm eb ea). f_equal. apply Z.add_comm.
Qed.

Lemma SFmul_comm (prec emax : Z) (a b : spec_float) :
  SFmul prec emax a b = SFmul prec emax b a.
Proof.
  destruct a as [sa|sa| |sa ma ea], b as [sb|sb| |sb mb eb];
    try reflexivity;
    try (simpl; rewrite xorb_comm; reflexivity).
  unfold SFmul.
  rewrite (xorb_comm sb sa), (Pos.mul_comm mb ma), (Z.add_comm eb ea).
  reflexivity.
Qed.

Lemma SFsub_self (prec emax : Z) (d : spec_float) :
  SFsub prec emax d d = if double.is_finite d then double.zero else NaN.
Proof.
  destruct (double.is_finite d) eqn:E.
  - apply SFsub_self_finite. exact E.
  - destruct d as [sg|[|]| |sg m e]; try discriminate; reflexivity.
Qed.

Lemma add_nan_r (a : Scalar) : double.add a NaN = NaN.
Proof. destruct a; reflexivity. Qed.

Lemma add_nonneg_infinity (a : Scalar) :
  double.is_nonneg a = true -> double.add a infinity = infinity.
Proof. destruct a as [sg|[|]| |[|] m e]; try discriminate; reflexivity. Qed.

Lemma add_infinity_nonneg (b : Scalar) :
  double.is_nonneg b = true -> double.add infinity b = infinity.
Proof. destruct b as [sg|[|]| |[|] m e]; try discriminate; reflexivity. Qed.

(** ** Element-wise operations, component by component *)

Lemma zipM_nth_error {A B C : Type} (op : A -> B -> option C) :
  forall (l1 : list A) (l2 : list B) (r : list C) (n : nat) (p : A) (q : B),
    zipM op l1 l2 = Some r ->
    nth_error l1 n = Some p -> nth_error l2 n = Some q ->
    exists c, nth_error r n = Some c /\ op p q = Some c.
Proof.
  induction l1 as [|a l1 IH]; intros l2 r n p q E Hp Hq.
  - destruct n; discriminate.
  - destruct l2 as [|b l2]; [discriminate|].
    simpl in E. apply bind_Some in E. destruct E as (c & Ec & E).
    apply bind_Some in E. destruct E as (r' & Er & E). injection E as <-.
    destruct n as [|n]; simpl in *.
    + injection Hp as <-. injection Hq as <-. eauto.
    + eapply IH; eauto.
Qed.

Lemma at_nth_error {T : Type} (v : list T) (i : Z) (c : T) :
  std_vector.at_ v i = Some c <->
  0 <= i /\ nth_error v (Z.to_nat i) = Some c.
Proof.
  unfold std_vector.at_, std_vector.size.
  destruct (Z.leb_spec 0 i) as [H0|H0];
    destruct (Z.ltb_spec i (Z.of_nat (List.length v))) as [H1|H1];
    simpl; split; try discriminate; try tauto; try lia.
  intros (_ & E).
  assert (nth_error v (Z.to_nat i) <> None) as Hn by congruence.
  apply nth_error_Some in Hn. lia.
Qed.

Lemma zipM_at {A B C : Type} (op : A -> B -> option C)
    (l1 : list A) (l2 : list B) (r : list C) (i : Z) (p : A) (q : B) :
  zipM op l1 l2 = Some r ->
  std_vector.at_ l1 i = Some p -> std_vector.at_ l2 i = Some q ->
  exists c, std_vector.at_ r i = Some c /\ op p q = Some c.
Proof.
  intros E Hp Hq. apply at_nth_error in Hp, Hq.
  destruct Hp as (H0 & Hp), Hq as (_ & Hq).
  destruct (zipM_nth_error op l1 l2 r _ p q E Hp Hq) as (c & Hc & Hop).
  exists c. split; [|exact Hop]. apply at_nth_error. auto.
Qed.

(** X1. [operator+], read off the source: the component [i] of the result is
    [std::plus<T>] of the components [i] of the operands; on doubles no sum
    is undefined and the result is the list of the rounded sums. *)
Theorem plus_components :
  forall (T : Type) (inst : ScalarType T) (Dim : nat)
         (a b : Vector T Dim) (u v : Vector Scalar Dim),
    has_dim u -> has_dim v ->
    (forall r i p q,
        operator_plus a b = Some r ->
        std_vector.at_ (vec a) i = Some p ->
        std_vector.at_ (vec b) i = Some q ->
        exists c, std_vector.at_ (vec r) i = Some c /\ plus p q = Some c)
    /\ operator_plus u v
       = Some (Vector_of_vec
                 (map (fun pq => double.add (fst pq) (snd pq))
                      (combine (vec u) (vec v)))).
Proof.
  intros T inst Dim a b u v Hu Hv. split.
  - intros r i p q E Hp Hq. rewrite operator_plus_zipM in E.
    apply bind_Some in E. destruct E as (w & Ew & E). injection E as <-.
    exact (zipM_at plus _ _ _ i p q Ew Hp Hq).
  - rewrite operator_plus_zipM.
    rewrite (zipM_total plus double.add)
      by (reflexivity || exact (eq_trans Hu (eq_sym Hv))).
    reflexivity.
Qed.

Lemma plus_components_witness :
  operator_plus
    (mkVector3d (double.of_Z 1) one_half infinity)
    (mkVector3d (double.of_Z 2) one_half NaN)
  = Some (mkVector3d (double.of_Z 3) (double.of_Z 1) NaN).
Proof.
  apply (plus_components Scalar ScalarType_double 3
           (mkVector3d (double.of_Z 1) one_half infinity)
           (mkVector3d (double.of_Z 2) one_half NaN)
           (mkVector3d (double.of_Z 1) one_half infinity)
           (mkVector3d (double.of_Z 2) one_half NaN));
    reflexivity.
Defined.

(** X2. [operator-], read off the source: the component [i] of the result is
    [std::minus<T>] of the components [i] of the operands; on doubles no
    difference is undefined and the result is the list of the rounded
    differences. *)
Theorem minus_components :
  forall (T : Type) (inst : ScalarType T) (Dim : nat)
         (a b : Vector T Dim) (u v : Vector Scalar Dim),
    has_dim u -> has_dim v ->
    (forall r i p q,
        operator_minus a b = Some r ->
        std_vector.at_ (vec a) i = Some p ->
        std_vector.at_ (vec b) i = Some q ->
        exists c, std_vector.at_ (vec r) i = Some c /\ minus p q = Some c)
    /\ operator_minus u v
       = Some (Vector_of_vec
                 (map (fun pq => double.sub (fst pq) (snd pq))
                      (combine (vec u) (vec v)))).
Proof.
  intros T inst Dim a b u v Hu Hv. split.
  - intros r i p q E Hp Hq. rewrite operator_minus_zipM in E.
    apply bind_Some in E. destruct E as (w & Ew & E). injection E as <-.
    exact (zipM_at minus _ _ _ i p q Ew Hp Hq).
  - rewrite operator_minus_zipM.
    rewrite (zipM_total minus double.sub)
      by (reflexivity || exact (eq_trans Hu (eq_sym Hv))).
    reflexivity.
Qed.

Lemma minus_components_witness :
  operator_minus
    (mkVector3d (double.of_Z 1) one_half infinity)
    (mkVector3d (double.of_Z 2) one_half (double.of_Z 5))
  = Some (mkVector3d (double.of_Z (-1)) double.zero infinity).
Proof.
  apply (minus_components Scalar ScalarType_double 3
           (mkVector3d (double.of_Z 1) one_half infinity)
           (mkVector3d (double.of_Z 2) one_half (double.of_Z 5))
           (mkVector3d (double.of_Z 1) one_half infinity)
           (mkVector3d (double.of_Z 2) one_half (double.of_Z 5)));
    reflexivity.
Defined.

(** ** Commutativity *)

Lemma zipM_comm {A C : Type} (op : A -> A -> option C) :
  (forall p q, op p q = op q p) ->
  forall l1 l2 : list A,
    List.length l1 = List.length l2 ->
    zipM op l1 l2 = zipM op l2 l1.
Proof.
  intros Hop. induction l1 as [|p l1 IH]; intros l2 Hlen.
  - destruct l2; [reflexivity | discriminate].
  - destruct l2 as [|q l2]; [discriminate|].
    simpl. rewrite (Hop p q), (IH l2) by (simpl in Hlen; lia).
    reflexivity.
Qed.

Lemma operator_plus_comm {T : Type} `{ScalarType T} {Dim : nat}
    (a b : Vector T Dim) :
  (forall p q : T, plus p q = plus q p) ->
  has_dim a -> has_dim b ->
  operator_plus a b = operator_plus b a.
Proof.
  intros Hop Ha Hb. rewrite !operator_plus_zipM.
  rewrite (zipM_comm plus Hop (vec a) (vec b) (eq_trans Ha (eq_sym Hb))).
  reflexivity.
Qed.

(** X3. Addition commutes, undefined results included: on doubles (a NaN has
    no payload here), on [int] and on [unsigned]. *)
Theorem plus_commutative :
  forall (Dim : nat) (a b : Vector Scalar Dim) (ai bi : Vector int.t Dim)
         (au bu : Vector unsigned.t Dim),
    has_dim a -> has_dim b -> has_dim ai -> has_dim bi ->
    has_dim au -> has_dim bu ->
    operator_plus a b = operator_plus b a
    /\ operator_plus ai bi = operator_plus bi ai
    /\ operator_plus au bu = operator_plus bu au.
Proof.
  intros Dim a b ai bi au bu Ha Hb Hai Hbi Hau Hbu. repeat split.
  - apply operator_plus_comm; try assumption.
    intros p q. simpl. f_equal. apply SFadd_comm.
  - apply operator_plus_comm; try assumption.
    intros p q. simpl. rewrite Z.add_comm. reflexivity.
  - apply operator_plus_comm; try assumption.
    intros p q. simpl. rewrite Z.add_comm. reflexivity.
Qed.

Lemma plus_commutative_witness :
  let a := mkVector3d two_pow_53 one_half infinity in
  let b := mkVector3d (double.of_Z 1) NaN neg_zero in
  operator_plus a b = operator_plus b a.
Proof.
  intros a b.
  apply (plus_commutative 3 a b
           (Vector_of_vec [2147483647; 1; 0])
           (Vector_of_vec [1; 2; 0])
           (Vector_of_vec [unsigned.mk 4294967295; unsigned.mk 7;
                           unsigned.mk 0])
           (Vector_of_vec [unsigned.mk 1; unsigned.mk 8; unsigned.mk 0]));
    reflexivity.
Defined.

Lemma foldM_combine_comm {A St : Type} (f : St -> A * A -> option St) :
  (forall s p q, f s (p, q) = f s (q, p)) ->
  forall (l1 l2 : list A) (s : St),
    foldM f (combine l1 l2) s = foldM f (combine l2 l1) s.
Proof.
  intros Hf. induction l1 as [|p l1 IH]; intros l2 s.
  - destruct l2; reflexivity.
  - destruct l2 as [|q l2]; [reflexivity|].
    simpl. rewrite (Hf s p q).
    destruct (f s (q, p)); simpl; [apply IH | reflexivity].
Qed.

Lemma operator_mul_Vector_comm {T : Type} `{ScalarType T} {Dim : nat}
    (a b : Vector T Dim) :
  (forall p q : T, mult p q = mult q p) ->
  has_dim a -> has_dim b -> Z.of_nat Dim < size_t.modulus ->
  operator_mul_Vector a b = operator_mul_Vector b a.
Proof.
  intros Hop Ha Hb HDim.
  rewrite !operator_mul_Vector_fold by assumption.
  unfold Spec.sum_of_products. apply foldM_combine_comm.
  intros s p q. simpl. rewrite (Hop p q). reflexivity.
Qed.

(** X4. The dot product is symmetric, undefined results included: on doubles,
    on [int] and on [unsigned]. *)
Theorem dot_symmetric :
  forall (Dim : nat) (a b : Vector Scalar Dim) (ai bi : Vector int.t Dim)
         (au bu : Vector unsigned.t Dim),
    has_dim a -> has_dim b -> has_dim ai -> has_dim bi ->
    has_dim au -> has_dim bu ->
    Z.of_nat Dim < size_t.modulus ->
    operator_mul_Vector a b = operator_mul_Vector b a
    /\ operator_mul_Vector ai bi = operator_mul_Vector bi ai
    /\ operator_mul_Vector au bu = operator_mul_Vector bu au.
Proof.
  intros Dim a b ai bi au bu Ha Hb Hai Hbi Hau Hbu HDim. repeat split.
  - apply operator_mul_Vector_comm; try assumption.
    intros p q. simpl. f_equal. apply SFmul_comm.
  - apply operator_mul_Vector_comm; try assumption.
    intros p q. simpl. rewrite Z.mul_comm. reflexivity.
  - apply operator_mul_Vector_comm; try assumption.
    intros p q. simpl. rewrite Z.mul_comm. reflexivity.
Qed.

Lemma dot_symmetric_witness :
  let a := mkVector3d two_pow_53 one_half infinity in
  let b := mkVector3d (double.of_Z 3) NaN neg_zero in
  operator_mul_Vector a b = operator_mul_Vector b a.
Proof.
  intros a b.
  apply (dot_symmetric 3 a b
           (Vector_of_vec [65536; 1; 0])
           (Vector_of_vec [65536; 2; 0])
           (Vector_of_vec [unsigned.mk 65536; unsigned.mk 7; unsigned.mk 0])
           (Vector_of_vec [unsigned.mk 65536; unsigned.mk 8; unsigned.mk 0]));
    reflexivity.
Defined.

(** ** The zero vector as an operand *)

Lemma zipM_repeat_total {A B C : Type} (op : A -> B -> option C)
    (z : B) (g : A -> C) :
  (forall c, op c z = Some (g c)) ->
  forall l : list A,
    zipM op l (repeat z (List.length l)) = Some (map g l).
Proof.
  intros Hop. induction l as [|c l IH]; simpl.
  - reflexivity.
  - rewrite Hop. simpl. rewrite IH. reflexivity.
Qed.

Lemma sub_zero_r (c : Scalar) : double.sub c double.zero = c.
Proof. destruct c as [[|]|sg| |sg m e]; reflexivity. Qed.

Lemma add_zero_r (c : Scalar) :
  (c = neg_zero /\ double.add c double.zero = double.zero)
  \/ (c <> neg_zero /\ double.add c double.zero = c).
Proof.
  destruct c as [[|]|sg| |sg m e];
    try (left; split; reflexivity);
    right; (split; [discriminate | reflexivity]).
Qed.

Lemma operator_minus_zero_vector {Dim : nat} (a : Vector Scalar Dim) :
  has_dim a ->
  operator_minus a (Spec.zeroVector double.zero Dim)
  = Some (Vector_of_vec (map (fun c => double.sub c double.zero) (vec a))).
Proof.
  intros Ha. rewrite operator_minus_zipM.
  change (vec (Spec.zeroVector double.zero Dim))
    with (repeat double.zero Dim).
  replace (repeat double.zero Dim)
    with (repeat double.zero (List.length (vec a)))
    by (f_equal; exact Ha).
  rewrite (zipM_repeat_total minus double.zero
             (fun c => double.sub c double.zero)) by reflexivity.
  reflexivity.
Qed.

Lemma operator_plus_zero_vector {Dim : nat} (a : Vector Scalar Dim) :
  has_dim a ->
  operator_plus a (Spec.zeroVector double.zero Dim)
  = Some (Vector_of_vec (map (fun c => double.add c double.zero) (vec a))).
Proof.
  intros Ha. rewrite operator_plus_zipM.
  change (vec (Spec.zeroVector double.zero Dim))
    with (repeat double.zero Dim).
  replace (repeat double.zero Dim)
    with (repeat double.zero (List.length (vec a)))
    by (f_equal; exact Ha).
  rewrite (zipM_repeat_total plus double.zero
             (fun c => double.add c double.zero)) by reflexivity.
  reflexivity.
Qed.

(** X5. Subtracting the zero vector from a vector of doubles gives the vector
    itself, whatever its components: zeros of either sign, infinities and
    NaN included. *)
Theorem minus_zero_vector :
  forall (Dim : nat) (a : Vector Scalar Dim),
    has_dim a ->
    operator_minus a (Spec.zeroVector double.zero Dim) = Some a.
Proof.
  intros Dim a Ha. rewrite (operator_minus_zero_vector a Ha).
  destruct a as [va]. simpl. clear Ha. do 2 f_equal.
  induction va as [|c va IH]; simpl.
  - reflexivity.
  - rewrite sub_zero_r. f_equal. exact IH.
Qed.

Lemma minus_zero_vector_witness :
  let a := mkVector3d neg_zero infinity NaN in
  operator_minus a (Spec.zeroVector double.zero 3) = Some a.
Proof.
  intros a. apply (minus_zero_vector 3 a). reflexivity.
Defined.

(** X6. Adding the zero vector to a vector of doubles gives the vector itself
    but for the components [-0.0], which become [+0.0]: [-0.0 + 0.0] is
    [+0.0].  Without such a component the result is the vector itself. *)
Theorem plus_zero_vector :
  forall (Dim : nat) (a : Vector Scalar Dim),
    has_dim a ->
    (exists r,
        operator_plus a (Spec.zeroVector double.zero Dim) = Some r
        /\ Forall2 (fun c ri => (c = neg_zero /\ ri = double.zero)
                                \/ (c <> neg_zero /\ ri = c))
                   (vec a) (vec r))
    /\ (Forall (fun c => c <> neg_zero) (vec a) ->
        operator_plus a (Spec.zeroVector double.zero Dim) = Some a).
Proof.
  intros Dim a Ha. rewrite (operator_plus_zero_vector a Ha).
  destruct a as [va]. simpl. clear Ha. split.
  - eexists. split; [reflexivity|]. simpl.
    induction va as [|c va IH]; simpl; constructor; [|exact IH].
    destruct (add_zero_r c) as [(Hc & ->)|(Hc & ->)]; auto.
  - intros Hnz. do 2 f_equal.
    induction Hnz as [|c va Hc _ IH]; simpl.
    + reflexivity.
    + destruct (add_zero_r c) as [(Hc' & _)|(_ & ->)]; [contradiction|].
      f_equal. exact IH.
Qed.

Lemma plus_zero_vector_witness :
  exists r,
    operator_plus (mkVector3d neg_zero infinity NaN)
                  (Spec.zeroVector double.zero 3) = Some r
    /\ Forall2 (fun c ri => (c = neg_zero /\ ri = double.zero)
                            \/ (c <> neg_zero /\ ri = c))
               [neg_zero; infinity; NaN] (vec r).
Proof.
  apply (plus_zero_vector 3 (mkVector3d neg_zero infinity NaN)).
  reflexivity.
Defined.

(** ** Where the dot product and the length are undefined *)

Lemma foldM_None_iff {A St : Type} (f : St -> A -> option St)
    (bad : A -> Prop) :
  (forall s a, f s a = None <-> bad a) ->
  forall (l : list A) (s : St), foldM f l s = None <-> Exists bad l.
Proof.
  intros Hf. induction l as [|a l IH]; intros s; simpl.
  - split; [discriminate | intros E; inversion E].
  - destruct (f s a) as [s'|] eqn:E; simpl.
    + rewrite IH. split.
      * intros Hl. right. exact Hl.
      * intros Hl. inversion Hl as [? ? Ha|? ? Hl']; subst; [|exact Hl'].
        apply Hf with (s := s) in Ha. congruence.
    + split; [|reflexivity]. intros _. left. apply (Hf s). exact E.
Qed.

Lemma operator_mul_Vector_None {T : Type} `{ScalarType T} {Dim : nat}
    (a b : Vector T Dim) :
  has_dim a -> has_dim b -> Z.of_nat Dim < size_t.modulus ->
  operator_mul_Vector a b = None <->
  Exists (fun pq => mult (fst pq) (snd pq) = None)
         (combine (vec a) (vec b)).
Proof.
  intros Ha Hb HDim. rewrite operator_mul_Vector_fold by assumption.
  unfold Spec.sum_of_products. apply foldM_None_iff.
  intros s pq. cbv beta.
  destruct (mult (fst pq) (snd pq)); simpl; split; intros E;
    (discriminate E || reflexivity).
Qed.

Lemma int_mult_None (p q : int.t) :
  mult p q = None <-> int.in_range (p * q) = false.
Proof.
  simpl. unfold int.checked.
  destruct (int.in_range (p * q)); split; congruence.
Qed.

(** X7. The dot product reads only components that exist, and is undefined
    exactly when the product of two components is: never on doubles; on
    [int], exactly when some product [a[i]*b[i]], which is computed in
    [int] before it is added to the [double] sum, is out of the range of
    [int].  The same holds of [length] and the squares. *)
Theorem dot_undefined_iff_product_undefined :
  forall (T : Type) (inst : ScalarType T) (Dim : nat)
         (a b : Vector T Dim) (u v : Vector Scalar Dim)
         (ai bi : Vector int.t Dim),
    has_dim a -> has_dim b -> has_dim u -> has_dim v ->
    has_dim ai -> has_dim bi ->
    Z.of_nat Dim < size_t.modulus ->
    (operator_mul_Vector a b = None <->
     Exists (fun pq => mult (fst pq) (snd pq) = None)
            (combine (vec a) (vec b)))
    /\ (exists d, operator_mul_Vector u v = Some d)
    /\ (exists d, length u = Some d)
    /\ (operator_mul_Vector ai bi = None <->
        Exists (fun pq => int.in_range (fst pq * snd pq) = false)
               (combine (vec ai) (vec bi)))
    /\ (length ai = None <->
        Exists (fun c => int.in_range (c * c) = false) (vec ai)).
Proof.
  intros T inst Dim a b u v ai bi Ha Hb Hu Hv Hai Hbi HDim.
  assert (Hdot : forall w : Vector Scalar Dim, has_dim w ->
                   exists d, operator_mul_Vector u w = Some d).
  { intros w Hw. rewrite operator_mul_Vector_fold by assumption.
    rewrite sum_of_products_double. eauto. }
  assert (Hint : forall wi : Vector int.t Dim, has_dim wi ->
            operator_mul_Vector ai wi = None <->
            Exists (fun pq => int.in_range (fst pq * snd pq) = false)
                   (combine (vec ai) (vec wi))).
  { intros wi Hwi. rewrite operator_mul_Vector_None by assumption.
    split; intros E; (eapply Exists_impl; [|exact E]);
      intros pq Hpq; apply int_mult_None; exact Hpq. }
  split; [|split; [|split; [|split]]].
  - apply operator_mul_Vector_None; assumption.
  - apply Hdot. exact Hv.
  - destruct (Hdot u Hu) as (d & Hd).
    rewrite length_sqrt_dot, Hd. simpl. eauto.
  - apply Hint. exact Hbi.
  - rewrite length_sqrt_dot. split.
    + intros E.
      destruct (operator_mul_Vector ai ai) eqn:Ed; [discriminate|].
      apply (Hint ai Hai) in Ed. rewrite combine_self in Ed.
      apply Exists_map in Ed. exact Ed.
    + intros E.
      assert (Ed : operator_mul_Vector ai ai = None).
      { apply (Hint ai Hai). rewrite combine_self. apply Exists_map.
        exact E. }
      rewrite Ed. reflexivity.
Qed.

Lemma dot_undefined_iff_product_undefined_witness :
  operator_mul_Vector (Vector_of_vec [65536; 1; 0] : Vector int.t 3)
                      (Vector_of_vec [32768; 2; 0]) = None
  <-> Exists (fun pq => int.in_range (fst pq * snd pq) = false)
             (combine [65536; 1; 0] [32768; 2; 0]).
Proof.
  apply (dot_undefined_iff_product_undefined int.t ScalarType_int 3
           (Vector_of_vec [65536; 1; 0]) (Vector_of_vec [32768; 2; 0])
           (Vector_of_vec [one_half; infinity; double.zero])
           (Vector_of_vec [NaN; two_pow_53; double.zero])
           (Vector_of_vec [65536; 1; 0]) (Vector_of_vec [32768; 2; 0]));
    reflexivity.
Defined.

(** ** Lengths that are not finite *)

Lemma fold_left_map {A B St : Type} (f : St -> B -> St) (g : A -> B) :
  forall (l : list A) (s : St),
    fold_left f (map g l) s = fold_left (fun st c => f st (g c)) l s.
Proof.
  induction l as [|c l IH]; intros s; simpl; [reflexivity | apply IH].
Qed.

(** On doubles the length is the root of the squares added from left to
    right. *)
Lemma length_double {Dim : nat} (a : Vector Scalar Dim) :
  has_dim a -> Z.of_nat Dim < size_t.modulus ->
  length a
  = Some (double.sqrt
            (fold_left (fun ret c => double.add ret (double.mul c c))
                       (vec a) double.zero)).
Proof.
  intros Ha HDim. rewrite length_sqrt_sum by assumption.
  rewrite sum_of_products_double. simpl. do 2 f_equal.
  rewrite combine_self.
  exact (fold_left_map
           (fun ret ab => double.add ret (double.mul (fst ab) (snd ab)))
           (fun c : Scalar => (c, c)) (vec a) double.zero).
Qed.

Lemma squares_from_nan (l : list Scalar) :
  fold_left (fun ret c => double.add ret (double.mul c c)) l NaN = NaN.
Proof.
  induction l as [|c l IH]; simpl; [reflexivity | exact IH].
Qed.

Lemma squares_nonneg (l : list Scalar) :
  Forall (fun c => double.is_nan c = false) l ->
  forall s, double.is_nonneg s = true ->
    double.is_nonneg
      (fold_left (fun ret c => double.add ret (double.mul c c)) l s) = true.
Proof.
  induction 1 as [|c l Hc _ IH]; intros s Hs; simpl.
  - exact Hs.
  - apply IH. apply SFadd_nonneg; [exact Hs|].
    apply SFmul_self_nonneg. exact Hc.
Qed.

Lemma squares_from_infinity (l : list Scalar) :
  Forall (fun c => double.is_nan c = false) l ->
  fold_left (fun ret c => double.add ret (double.mul c c)) l infinity
  = infinity.
Proof.
  induction 1 as [|c l Hc _ IH]; cbn [fold_left].
  - reflexivity.
  - rewrite add_infinity_nonneg; [exact IH|].
    apply SFmul_self_nonneg. exact Hc.
Qed.

Lemma nan_or_not (l : list Scalar) :
  Forall (fun c => double.is_nan c = false) l
  \/ Exists (fun c => double.is_nan c = true) l.
Proof.
  induction l as [|c l [IH|IH]].
  - left. constructor.
  - destruct (double.is_nan c) eqn:E.
    + right. left. exact E.
    + left. constructor; assumption.
  - right. right. exact IH.
Qed.

(** X8. The length of a vector of doubles is a NaN exactly when a component
    is. *)
Theorem length_nan_iff_component_nan :
  forall (Dim : nat) (a : Vector Scalar Dim),
    has_dim a -> Z.of_nat Dim < size_t.modulus ->
    length a = Some NaN <->
    Exists (fun c => double.is_nan c = true) (vec a).
Proof.
  intros Dim a Ha HDim. rewrite length_double by assumption. split.
  - intros E. destruct (nan_or_not (vec a)) as [Hno|Hyes]; [|exact Hyes].
    exfalso.
    pose proof (squares_nonneg (vec a) Hno double.zero eq_refl) as Hs.
    apply (SFsqrt_nonneg double.prec double.emax) in Hs.
    injection E as E. unfold double.sqrt in E. rewrite E in Hs.
    discriminate.
  - intros E. apply Exists_exists in E. destruct E as (c & Hin & Hc).
    destruct c; try discriminate.
    apply in_split in Hin. destruct Hin as (l1 & l2 & ->).
    rewrite fold_left_app. cbn [fold_left].
    change (double.mul S754_nan S754_nan) with NaN.
    rewrite add_nan_r, squares_from_nan. reflexivity.
Qed.

Lemma length_nan_iff_component_nan_witness :
  length (mkVector3d one_half NaN infinity) = Some NaN
  <-> Exists (fun c => double.is_nan c = true) [one_half; NaN; infinity].
Proof.
  apply (length_nan_iff_component_nan 3
           (mkVector3d one_half NaN infinity));
    reflexivity.
Defined.

(** X9. The length of a vector of doubles with an infinite component and no
    NaN is plus infinity. *)
Theorem length_infinite_component :
  forall (Dim : nat) (a : Vector Scalar Dim),
    has_dim a -> Z.of_nat Dim < size_t.modulus ->
    Forall (fun c => double.is_nan c = false) (vec a) ->
    Exists (fun c => double.is_finite c = false) (vec a) ->
    length a = Some infinity.
Proof.
  intros Dim a Ha HDim Hno Hinf. rewrite length_double by assumption.
  apply Exists_exists in Hinf. destruct Hinf as (c & Hin & Hc).
  apply in_split in Hin. destruct Hin as (l1 & l2 & E).
  rewrite E in *. apply Forall_app in Hno. destruct Hno as (Hno1 & Hno2).
  inversion Hno2 as [|? ? Hcn Hno2']; subst.
  destruct c as [sg|sg| |sg m e]; try discriminate.
  rewrite fold_left_app. cbn [fold_left].
  replace (double.mul (S754_infinity sg) (S754_infinity sg)) with infinity
    by (destruct sg; reflexivity).
  rewrite add_nonneg_infinity
    by (apply squares_nonneg; [exact Hno1 | reflexivity]).
  rewrite squares_from_infinity by exact Hno2'. reflexivity.
Qed.

Lemma length_infinite_component_witness :
  length (mkVector3d one_half (S754_infinity true) (double.of_Z 3))
  = Some infinity.
Proof.
  apply (length_infinite_component 3
           (mkVector3d one_half (S754_infinity true) (double.of_Z 3)));
    try reflexivity.
  - repeat constructor.
  - right. left. reflexivity.
Defined.

(** ** The dot product with the zero vector *)

Lemma combine_repeat {A B : Type} (z : B) (l : list A) :
  combine l (repeat z (List.length l)) = map (fun c => (c, z)) l.
Proof.
  induction l as [|c l IH]; simpl; [|rewrite IH]; reflexivity.
Qed.

Lemma operator_mul_Vector_zero {Dim : nat} (a : Vector Scalar Dim) :
  has_dim a -> Z.of_nat Dim < size_t.modulus ->
  operator_mul_Vector a (Spec.zeroVector double.zero Dim)
  = Some (fold_left
            (fun ret c => double.add ret (double.mul c double.zero))
            (vec a) double.zero).
Proof.
  intros Ha HDim.
  rewrite operator_mul_Vector_fold;
    [|exact Ha|apply repeat_length|exact HDim].
  rewrite sum_of_products_double. f_equal.
  change (vec (Spec.zeroVector double.zero Dim))
    with (repeat double.zero Dim).
  replace (repeat double.zero Dim)
    with (repeat double.zero (List.length (vec a)))
    by (f_equal; exact Ha).
  rewrite combine_repeat.
  exact (fold_left_map
           (fun ret ab => double.add ret (double.mul (fst ab) (snd ab)))
           (fun c : Scalar => (c, double.zero)) (vec a) double.zero).
Qed.

Lemma add_zero_mul_zero (c : Scalar) :
  double.add double.zero (double.mul c double.zero)
  = if double.is_finite c then double.zero else NaN.
Proof. destruct c as [[|]|sg| |[|] m e]; reflexivity. Qed.

Lemma products_with_zero_from_nan (l : list Scalar) :
  fold_left (fun ret c => double.add ret (double.mul c double.zero)) l NaN
  = NaN.
Proof.
  induction l as [|c l IH]; cbn [fold_left]; [reflexivity | exact IH].
Qed.

(** X10. The dot product of a vector of doubles and the zero vector is [+0.0]
    when every component is finite, and a NaN as soon as one is not:
    [inf * 0] is a NaN. *)
Theorem dot_with_zero_vector :
  forall (Dim : nat) (a : Vector Scalar Dim),
    has_dim a -> Z.of_nat Dim < size_t.modulus ->
    (Forall (fun c => double.is_finite c = true) (vec a) ->
     operator_mul_Vector a (Spec.zeroVector double.zero Dim)
     = Some double.zero)
    /\ (Exists (fun c => double.is_finite c = false) (vec a) ->
        operator_mul_Vector a (Spec.zeroVector double.zero Dim)
        = Some NaN).
Proof.
  intros Dim a Ha HDim.
  rewrite (operator_mul_Vector_zero a Ha HDim). split.
  - intros Hfin. f_equal.
    induction Hfin as [|c l Hc _ IH]; cbn [fold_left].
    + reflexivity.
    + rewrite add_zero_mul_zero, Hc. exact IH.
  - intros Hinf. f_equal.
    induction Hinf as [c l Hc|c l _ IH]; cbn [fold_left].
    + rewrite add_zero_mul_zero, Hc. apply products_with_zero_from_nan.
    + rewrite add_zero_mul_zero.
      destruct (double.is_finite c);
        [exact IH | apply products_with_zero_from_nan].
Qed.

Lemma dot_with_zero_vector_witness :
  operator_mul_Vector (mkVector3d one_half neg_zero (double.of_Z (-3)))
                      (Spec.zeroVector double.zero 3)
  = Some double.zero.
Proof.
  apply (dot_with_zero_vector 3
           (mkVector3d one_half neg_zero (double.of_Z (-3))));
    try reflexivity.
  repeat constructor.
Defined.

(** ** The cross product of a vector with itself *)

(** X11. Each component of the cross product of a vector of doubles with itself
    is [p - p] for a product [p] of two components: [+0.0] when [p] is
    finite, a NaN when it is not.  The result is the zero vector when the
    three products are finite, which they need not be for finite
    components, as a product may overflow. *)
Theorem cross_with_itself :
  forall a0 a1 a2 : Scalar,
    exists r,
      x (mkVector3d a0 a1 a2) (mkVector3d a0 a1 a2) = Some r
      /\ vec r
         = [ if double.is_finite (double.mul a1 a2)
             then double.zero else NaN;
             if double.is_finite (double.mul a2 a0)
             then double.zero else NaN;
             if double.is_finite (double.mul a0 a1)
             then double.zero else NaN ]
      /\ (double.is_finite (double.mul a1 a2) = true ->
          double.is_finite (double.mul a2 a0) = true ->
          double.is_finite (double.mul a0 a1) = true ->
          r = Spec.zeroVector double.zero 3).
Proof.
  intros a0 a1 a2.
  assert (E : x (mkVector3d a0 a1 a2) (mkVector3d a0 a1 a2)
              = Some (mkVector3d
                  (double.sub (double.mul a1 a2) (double.mul a2 a1))
                  (double.sub (double.mul a2 a0) (double.mul a0 a2))
                  (double.sub (double.mul a0 a1) (double.mul a1 a0))))
    by reflexivity.
  unfold double.mul in E at 2 4 6.
  rewrite (SFmul_comm _ _ a2 a1), (SFmul_comm _ _ a0 a2),
    (SFmul_comm _ _ a1 a0) in E.
  unfold double.sub in E. rewrite !SFsub_self in E.
  eexists. split; [exact E|]. split; [reflexivity|].
  intros H12 H20 H01. unfold double.mul in *.
  rewrite H12, H20, H01. reflexivity.
Qed.

(** ** Chained stream insertions *)

(** X12. [os << a << b] appends the text of [a], then that of [b], to what the
    stream holds, for vectors of any two component types and dimensions of
    at least one. *)
Theorem stream_insertions_chain :
  forall (T1 T2 : Type) (inst1 : ScalarType T1) (inst2 : ScalarType T2)
         (Dim1 Dim2 : nat) (a : Vector T1 Dim1) (b : Vector T2 Dim2)
         (os : ostream),
    has_dim a -> has_dim b ->
    (1 <= Dim1)%nat -> (1 <= Dim2)%nat ->
    Z.of_nat Dim1 < size_t.modulus -> Z.of_nat Dim2 < size_t.modulus ->
    (os' <- operator_shl os a ;; operator_shl os' b)
    = Some (os ++ Spec.rendering (map to_string (vec a))
               ++ Spec.rendering (map to_string (vec b)))%string.
Proof.
  intros T1 T2 inst1 inst2 Dim1 Dim2 a b os Ha Hb H1 H2 HD1 HD2.
  unfold operator_shl.
  rewrite (toString_rendering a Ha H1 HD1).
  rewrite (toString_rendering b Hb H2 HD2).
  simpl. rewrite string_append_assoc. reflexivity.
Qed.

Lemma stream_insertions_chain_witness :
  let a := mkVector3d (double.of_Z 1) one_half (double.of_Z (-2)) in
  let b : Vector int.t 3 := Vector_of_vec [7; -12; 0] in
  (os' <- operator_shl "v = "%string a ;; operator_shl os' b)
  = Some ("v = " ++ Spec.rendering (map to_string (vec a))
                 ++ Spec.rendering (map to_string (vec b)))%string.
Proof.
  intros a b.
  apply (stream_insertions_chain Scalar int.t _ _ 3 3 a b "v = "%string);
    try reflexivity; repeat constructor.
Defined.

(** ** Where the addition and the subtraction are undefined *)

Lemma zipM_None_iff {A B C : Type} (op : A -> B -> option C) :
  forall (l1 : list A) (l2 : list B),
    List.length l1 = List.length l2 ->
    zipM op l1 l2 = None <->
    Exists (fun pq => op (fst pq) (snd pq) = None) (combine l1 l2).
Proof.
  induction l1 as [|p l1 IH]; intros l2 Hlen.
  - simpl. split; [discriminate | intros E; inversion E].
  - destruct l2 as [|q l2]; [discriminate|].
    simpl in Hlen. specialize (IH l2 ltac:(lia)). simpl.
    destruct (op p q) as [c|] eqn:Ec; simpl.
    + destruct (zipM op l1 l2) as [r|]; simpl.
      * split; [discriminate|].
        intros E. inversion E as [? ? Hpq|? ? Hl]; subst.
        -- simpl in Hpq. congruence.
        -- apply IH in Hl. discriminate.
      * split; [|reflexivity]. intros _. right. apply IH. reflexivity.
    + split; [|reflexivity]. intros _. left. exact Ec.
Qed.

Lemma int_plus_None (p q : int.t) :
  plus p q = None <-> int.in_range (p + q) = false.
Proof.
  simpl. unfold int.checked.
  destruct (int.in_range (p + q)); split; congruence.
Qed.

Lemma int_minus_None (p q : int.t) :
  minus p q = None <-> int.in_range (p - q) = false.
Proof.
  simpl. unfold int.checked.
  destruct (int.in_range (p - q)); split; congruence.
Qed.

(** X13. On [int] vectors the addition is undefined exactly when a sum of two
    components is out of the range of [int], and the subtraction exactly
    when a difference is; on [unsigned] vectors both always return. *)
Theorem plus_minus_undefined_iff_overflow :
  forall (Dim : nat) (ai bi : Vector int.t Dim)
         (au bu : Vector unsigned.t Dim),
    has_dim ai -> has_dim bi -> has_dim au -> has_dim bu ->
    (operator_plus ai bi = None <->
     Exists (fun pq => int.in_range (fst pq + snd pq) = false)
            (combine (vec ai) (vec bi)))
    /\ (operator_minus ai bi = None <->
        Exists (fun pq => int.in_range (fst pq - snd pq) = false)
               (combine (vec ai) (vec bi)))
    /\ (exists r, operator_plus au bu = Some r)
    /\ (exists r, operator_minus au bu = Some r).
Proof.
  intros Dim ai bi au bu Hai Hbi Hau Hbu.
  pose proof (eq_trans Hai (eq_sym Hbi)) as Hi.
  pose proof (eq_trans Hau (eq_sym Hbu)) as Hu.
  assert (Eplus : zipM plus (vec ai) (vec bi) = None <->
            Exists (fun pq => int.in_range (fst pq + snd pq) = false)
                   (combine (vec ai) (vec bi))).
  { rewrite (zipM_None_iff plus (vec ai) (vec bi) Hi).
    split; intros E; (eapply Exists_impl; [|exact E]);
      intros pq; apply int_plus_None. }
  assert (Eminus : zipM minus (vec ai) (vec bi) = None <->
            Exists (fun pq => int.in_range (fst pq - snd pq) = false)
                   (combine (vec ai) (vec bi))).
  { rewrite (zipM_None_iff minus (vec ai) (vec bi) Hi).
    split; intros E; (eapply Exists_impl; [|exact E]);
      intros pq; apply int_minus_None. }
  split; [|split; [|split]].
  - rewrite operator_plus_zipM, <- Eplus.
    destruct (zipM plus (vec ai) (vec bi)); simpl; split;
      intros E; (discriminate E || reflexivity).
  - rewrite operator_minus_zipM, <- Eminus.
    destruct (zipM minus (vec ai) (vec bi)); simpl; split;
      intros E; (discriminate E || reflexivity).
  - rewrite operator_plus_zipM.
    rewrite (zipM_total plus
               (fun p q => unsigned.wrap (unsigned.value p + unsigned.value q)))
      by (reflexivity || exact Hu).
    simpl. eauto.
  - rewrite operator_minus_zipM.
    rewrite (zipM_total minus
               (fun p q => unsigned.wrap (unsigned.value p - unsigned.value q)))
      by (reflexivity || exact Hu).
    simpl. eauto.
Qed.

Lemma plus_minus_undefined_iff_overflow_witness :
  operator_plus (Vector_of_vec [2147483647; 1; 0] : Vector int.t 3)
                (Vector_of_vec [1; 2; 0]) = None
  <-> Exists (fun pq => int.in_range (fst pq + snd pq) = false)
             (combine [2147483647; 1; 0] [1; 2; 0]).
Proof.
  apply (plus_minus_undefined_iff_overflow 3
           (Vector_of_vec [2147483647; 1; 0]) (Vector_of_vec [1; 2; 0])
           (Vector_of_vec [unsigned.mk 0; unsigned.mk 1; unsigned.mk 2])
           (Vector_of_vec [unsigned.mk 1; unsigned.mk 2; unsigned.mk 3]));
    reflexivity.
Defined.

(** ** Scaling by zero *)

Lemma mul_zero_l (c : Scalar) :
  (double.is_finite c = true
   /\ double.eqb (double.mul double.zero c) double.zero = true)
  \/ (double.is_finite c = false /\ double.mul double.zero c = NaN).
Proof.
  destruct c as [[|]|sg| |[|] m e];
    try (left; split; reflexivity); right; split; reflexivity.
Qed.

(** X14. Scaling a vector of doubles by [0.0] gives, component by component, a
    zero (of the sign of the component) where the component is finite and a
    NaN where it is not: the result compares equal to the zero vector
    exactly when every component is finite. *)
Theorem scale_by_zero :
  forall (Dim : nat) (a : Vector Scalar Dim),
    has_dim a ->
    exists r,
      operator_mul_Scalar a double.zero = Some r
      /\ has_dim r
      /\ Forall2 (fun c ri =>
                    (double.is_finite c = true
                     /\ double.eqb ri double.zero = true)
                    \/ (double.is_finite c = false /\ ri = NaN))
                 (vec a) (vec r).
Proof.
  intros Dim a Ha. unfold operator_mul_Scalar.
  rewrite (transform_total _ (double.mul double.zero)) by reflexivity.
  eexists. split; [reflexivity|]. simpl. split.
  - unfold has_dim. simpl. rewrite length_map. exact Ha.
  - clear Ha. induction (vec a) as [|c l IH]; simpl; constructor.
    + apply mul_zero_l.
    + exact IH.
Qed.

Lemma scale_by_zero_witness :
  exists r,
    operator_mul_Scalar (mkVector3d one_half infinity (double.of_Z (-3)))
                        double.zero = Some r
    /\ has_dim r
    /\ Forall2 (fun c ri =>
                  (double.is_finite c = true
                   /\ double.eqb ri double.zero = true)
                  \/ (double.is_finite c = false /\ ri = NaN))
               [one_half; infinity; double.of_Z (-3)] (vec r).
Proof.
  apply (scale_by_zero 3
           (mkVector3d one_half infinity (double.of_Z (-3)))).
  reflexivity.
Defined.
